(** * The conversation-history hook ([useHistory]) and its export helpers

    A shallow embedding of the React hook that owns the conversation list of
    the chat client: the cached list, the single-item view/delete/download
    flow, the batch-selection flow and the [conversationDeleted] broadcast.

    JavaScript strings are sequences of UTF-16 code units, a [Set<string>] is
    an insertion-ordered sequence without repetitions, every [useState] cell is
    a field of one record, and an action of the hook is a small program over
    that record which can await the conversation store. *)

From Stdlib Require Import List NArith ZArith String Ascii Bool Lia.
From Stdlib Require Import DecimalString.
From Stdlib Require Import Permutation Sorted.
Import ListNotations.

Set Implicit Arguments.

(* ================================================================== *)
(** ** JavaScript strings *)
(* ================================================================== *)

Module JsString.

(** A string is its sequence of UTF-16 code units. *)
Definition t := list N.

(** String literals of the source, all of them Basic Latin. *)
Definition lit (s : string) : t := map N_of_ascii (list_ascii_of_string s).

(** [===] on strings: same code units in the same order. *)
Fixpoint eqb (a b : t) : bool :=
  match a, b with
  | [], [] => true
  | x :: a', y :: b' => N.eqb x y && eqb a' b'
  | _, _ => false
  end.

(** The escape [\n]. *)
Definition nl : t := [10%N].

(** [s.length] *)
Definition length (s : t) : Z := Z.of_nat (List.length s).

(** [s.substring(start, end)]: both indices are clamped to [0, length] and
    swapped when [start > end]. *)
Definition substring (s : t) (start fin : Z) : t :=
  let len := length s in
  let finalStart := Z.min (Z.max start 0) len in
  let finalEnd := Z.min (Z.max fin 0) len in
  let from := Z.min finalStart finalEnd in
  let to := Z.max finalStart finalEnd in
  firstn (Z.to_nat (to - from)) (skipn (Z.to_nat from) s).

(** [`${n}`] for a non-negative integer: its decimal digits. *)
Definition of_nat (n : nat) : t := lit (NilEmpty.string_of_uint (Nat.to_uint n)).

(** Case mapping of one Basic Latin code unit. *)
Definition is_upper (c : N) : bool := (65 <=? c)%N && (c <=? 90)%N.
Definition is_lower (c : N) : bool := (97 <=? c)%N && (c <=? 122)%N.
Definition is_digit (c : N) : bool := (48 <=? c)%N && (c <=? 57)%N.
Definition lower_unit (c : N) : N := if is_upper c then (c + 32)%N else c.
Definition upper_unit (c : N) : N := if is_lower c then (c - 32)%N else c.

(** [!s]: the empty string is the only falsy string. *)
Definition falsy (s : t) : bool :=
  match s with [] => true | _ :: _ => false end.

End JsString.

Definition jsstring : Type := JsString.t.

(** [!x] for a cell of type [string | null]. *)
Definition falsy_cell (x : option jsstring) : bool :=
  match x with
  | None => true
  | Some s => JsString.falsy s
  end.

(* ================================================================== *)
(** ** [Set<string>] *)
(* ================================================================== *)

Module JsSet.

(** Elements in insertion order; [forEach] and [for .. of] visit them in
    that order. *)
Definition t := list jsstring.

Definition empty : t := [].

Definition has (x : jsstring) (s : t) : bool := existsb (JsString.eqb x) s.

(** [s.add(x)]: appended unless already present. *)
Definition add (x : jsstring) (s : t) : t :=
  if has x s then s else s ++ [x].

(** [s.delete(x)] *)
Definition delete (x : jsstring) (s : t) : t :=
  filter (fun y => negb (JsString.eqb x y)) s.

Definition size (s : t) : nat := List.length s.

(** [new Set(iterable)]: elements are added one after the other. *)
Definition of_list (l : list jsstring) : t :=
  fold_left (fun acc x => add x acc) l empty.

(** [new Set(prev)] for a set [prev]. *)
Definition copy (s : t) : t := of_list s.

End JsSet.

(* ================================================================== *)
(** ** Conversations *)
(* ================================================================== *)

(** The fields of [ChatConversation] and of its messages that the hook reads.
    Time stamps are the numbers handed to [new Date]. *)
Record ChatMessage := {
  role : jsstring;
  content : jsstring
}.

Record ChatConversation := {
  id : jsstring;
  title : jsstring;
  createdAt : Z;
  updatedAt : Z;
  messages : list ChatMessage
}.

(* ================================================================== *)
(** ** Markdown export and file names *)
(* ================================================================== *)

Module RegExp.

(** The pattern of [generateFilename] is [/[^a-z0-9]/gi]: a negated class,
    matched one code unit at a time (no [u] flag), ignoring case.

    Without the [u] flag, case is ignored by comparing canonical forms:
    the upper-case mapping of the unit, except that a unit outside Basic
    Latin is never mapped into Basic Latin. [upper] is the engine's
    upper-case mapping of a single unit outside Basic Latin. *)
Definition canonicalize (upper : N -> N) (ch : N) : N :=
  if (ch <? 128)%N then JsString.upper_unit ch
  else let cu := upper ch in
       if (cu <? 128)%N then ch else cu.

(** The members of the class [a-z0-9]. *)
Definition class_members : list N :=
  map N.of_nat (seq 97 26) ++ map N.of_nat (seq 48 10).

(** A unit matches [[^a-z0-9]] under [i] when no member of the class has
    the same canonical form. *)
Definition matches (upper : N -> N) (ch : N) : bool :=
  negb (existsb (fun a => N.eqb (canonicalize upper a) (canonicalize upper ch))
                class_members).

(** [s.replace(/[^a-z0-9]/gi, r)]: every matching unit becomes [r]. *)
Definition replace_all (upper : N -> N) (s r : jsstring) : jsstring :=
  flat_map (fun ch => if matches upper ch then r else [ch]) s.

End RegExp.

Section Exporting.

(** What the JavaScript engine provides. *)
Variable toLocaleString : Z -> jsstring.      (* new Date(t).toLocaleString() *)
Variable toUpperCase : jsstring -> jsstring.  (* String.prototype.toUpperCase *)
Variable toLowerCase : jsstring -> jsstring.  (* String.prototype.toLowerCase *)
Variable upper16 : N -> N.                    (* upper-case mapping of one unit *)

(** [array.forEach((x, index) => ...)] threading the variable the callback
    assigns to. *)
Fixpoint forEach_from {A V : Type} (f : V -> A -> nat -> V)
         (l : list A) (index : nat) (acc : V) : V :=
  match l with
  | [] => acc
  | x :: l' => forEach_from f l' (S index) (f acc x index)
  end.

Definition forEach {A V : Type} (f : V -> A -> nat -> V) (l : list A) (acc : V) : V :=
  forEach_from f l 0 acc.

(** The arrow function handed to [messages.forEach]; [count] is
    [conversation.messages.length]. *)
Definition appendMessage (count : nat) (markdown : jsstring)
           (message : ChatMessage) (index : nat) : jsstring :=
  let roleLabel := toUpperCase (role message) in
  let markdown := markdown ++
    JsString.lit "## " ++ roleLabel ++ JsString.lit ": "
      ++ content message ++ JsString.nl in
  if (Z.of_nat index <? Z.of_nat count - 1)%Z
  then markdown ++ JsString.nl
  else markdown.

Definition generateConversationMarkdown (conversation : ChatConversation) : jsstring :=
  let markdown :=
    JsString.lit "# " ++ title conversation ++ JsString.nl ++ JsString.nl in
  let markdown := markdown ++
    JsString.lit "**Created:** " ++ toLocaleString (createdAt conversation)
      ++ JsString.nl in
  let markdown := markdown ++
    JsString.lit "**Updated:** " ++ toLocaleString (updatedAt conversation)
      ++ JsString.nl in
  let markdown := markdown ++
    JsString.lit "**Messages:** "
      ++ JsString.of_nat (List.length (messages conversation))
      ++ JsString.nl ++ JsString.nl ++ JsString.lit "---"
      ++ JsString.nl ++ JsString.nl in
  forEach (appendMessage (List.length (messages conversation)))
          (messages conversation) markdown.

Definition generateFilename (title : jsstring) : jsstring :=
  let sanitizedTitle :=
    toLowerCase (RegExp.replace_all upper16 title (JsString.lit "_")) in
  JsString.substring sanitizedTitle 0 16 ++ JsString.lit ".md".

End Exporting.

(* ================================================================== *)
(** ** The state of the hook *)
(* ================================================================== *)

(** One field per [useState] cell. *)
Record HistoryState := {
  isLoading : bool;
  conversations : list ChatConversation;
  search : jsstring;
  selectedConversationId : option jsstring;
  viewingConversation : option ChatConversation;
  downloadedConversations : JsSet.t;
  deleteConfirm : option jsstring;
  isDownloaded : bool;
  isAttached : bool;
  isSelectionMode : bool;
  selectedIds : JsSet.t;
  batchDeleteConfirm : bool
}.

(** The initial values given to [useState]. *)
Definition initialState : HistoryState := {|
  isLoading := false;
  conversations := [];
  search := [];
  selectedConversationId := None;
  viewingConversation := None;
  downloadedConversations := JsSet.empty;
  deleteConfirm := None;
  isDownloaded := false;
  isAttached := false;
  isSelectionMode := false;
  selectedIds := JsSet.empty;
  batchDeleteConfirm := false
|}.

(** The setters, in their functional form [setX(prev => f prev)]; the plain
    form [setX(v)] is [setX (fun _ => v)]. *)
Definition with_isLoading (f : bool -> bool) (s : HistoryState) : HistoryState :=
  {| isLoading := f (isLoading s); conversations := conversations s;
     search := search s; selectedConversationId := selectedConversationId s;
     viewingConversation := viewingConversation s;
     downloadedConversations := downloadedConversations s;
     deleteConfirm := deleteConfirm s; isDownloaded := isDownloaded s;
     isAttached := isAttached s; isSelectionMode := isSelectionMode s;
     selectedIds := selectedIds s; batchDeleteConfirm := batchDeleteConfirm s |}.

Definition with_conversations (f : list ChatConversation -> list ChatConversation)
           (s : HistoryState) : HistoryState :=
  {| isLoading := isLoading s; conversations := f (conversations s);
     search := search s; selectedConversationId := selectedConversationId s;
     viewingConversation := viewingConversation s;
     downloadedConversations := downloadedConversations s;
     deleteConfirm := deleteConfirm s; isDownloaded := isDownloaded s;
     isAttached := isAttached s; isSelectionMode := isSelectionMode s;
     selectedIds := selectedIds s; batchDeleteConfirm := batchDeleteConfirm s |}.

Definition with_search (f : jsstring -> jsstring) (s : HistoryState) : HistoryState :=
  {| isLoading := isLoading s; conversations := conversations s;
     search := f (search s); selectedConversationId := selectedConversationId s;
     viewingConversation := viewingConversation s;
     downloadedConversations := downloadedConversations s;
     deleteConfirm := deleteConfirm s; isDownloaded := isDownloaded s;
     isAttached := isAttached s; isSelectionMode := isSelectionMode s;
     selectedIds := selectedIds s; batchDeleteConfirm := batchDeleteConfirm s |}.

Definition with_selectedConversationId (f : option jsstring -> option jsstring)
           (s : HistoryState) : HistoryState :=
  {| isLoading := isLoading s; conversations := conversations s;
     search := search s; selectedConversationId := f (selectedConversationId s);
     viewingConversation := viewingConversation s;
     downloadedConversations := downloadedConversations s;
     deleteConfirm := deleteConfirm s; isDownloaded := isDownloaded s;
     isAttached := isAttached s; isSelectionMode := isSelectionMode s;
     selectedIds := selectedIds s; batchDeleteConfirm := batchDeleteConfirm s |}.

Definition with_viewingConversation
           (f : option ChatConversation -> option ChatConversation)
           (s : HistoryState) : HistoryState :=
  {| isLoading := isLoading s; conversations := conversations s;
     search := search s; selectedConversationId := selectedConversationId s;
     viewingConversation := f (viewingConversation s);
     downloadedConversations := downloadedConversations s;
     deleteConfirm := deleteConfirm s; isDownloaded := isDownloaded s;
     isAttached := isAttached s; isSelectionMode := isSelectionMode s;
     selectedIds := selectedIds s; batchDeleteConfirm := batchDeleteConfirm s |}.

Definition with_downloadedConversations (f : JsSet.t -> JsSet.t)
           (s : HistoryState) : HistoryState :=
  {| isLoading := isLoading s; conversations := conversations s;
     search := search s; selectedConversationId := selectedConversationId s;
     viewingConversation := viewingConversation s;
     downloadedConversations := f (downloadedConversations s);
     deleteConfirm := deleteConfirm s; isDownloaded := isDownloaded s;
     isAttached := isAttached s; isSelectionMode := isSelectionMode s;
     selectedIds := selectedIds s; batchDeleteConfirm := batchDeleteConfirm s |}.

Definition with_deleteConfirm (f : option jsstring -> option jsstring)
           (s : HistoryState) : HistoryState :=
  {| isLoading := isLoading s; conversations := conversations s;
     search := search s; selectedConversationId := selectedConversationId s;
     viewingConversation := viewingConversation s;
     downloadedConversations := downloadedConversations s;
     deleteConfirm := f (deleteConfirm s); isDownloaded := isDownloaded s;
     isAttached := isAttached s; isSelectionMode := isSelectionMode s;
     selectedIds := selectedIds s; batchDeleteConfirm := batchDeleteConfirm s |}.

Definition with_isDownloaded (f : bool -> bool) (s : HistoryState) : HistoryState :=
  {| isLoading := isLoading s; conversations := conversations s;
     search := search s; selectedConversationId := selectedConversationId s;
     viewingConversation := viewingConversation s;
     downloadedConversations := downloadedConversations s;
     deleteConfirm := deleteConfirm s; isDownloaded := f (isDownloaded s);
     isAttached := isAttached s; isSelectionMode := isSelectionMode s;
     selectedIds := selectedIds s; batchDeleteConfirm := batchDeleteConfirm s |}.

Definition with_isAttached (f : bool -> bool) (s : HistoryState) : HistoryState :=
  {| isLoading := isLoading s; conversations := conversations s;
     search := search s; selectedConversationId := selectedConversationId s;
     viewingConversation := viewingConversation s;
     downloadedConversations := downloadedConversations s;
     deleteConfirm := deleteConfirm s; isDownloaded := isDownloaded s;
     isAttached := f (isAttached s); isSelectionMode := isSelectionMode s;
     selectedIds := selectedIds s; batchDeleteConfirm := batchDeleteConfirm s |}.

Definition with_isSelectionMode (f : bool -> bool) (s : HistoryState) : HistoryState :=
  {| isLoading := isLoading s; conversations := conversations s;
     search := search s; selectedConversationId := selectedConversationId s;
     viewingConversation := viewingConversation s;
     downloadedConversations := downloadedConversations s;
     deleteConfirm := deleteConfirm s; isDownloaded := isDownloaded s;
     isAttached := isAttached s; isSelectionMode := f (isSelectionMode s);
     selectedIds := selectedIds s; batchDeleteConfirm := batchDeleteConfirm s |}.

Definition with_selectedIds (f : JsSet.t -> JsSet.t) (s : HistoryState) : HistoryState :=
  {| isLoading := isLoading s; conversations := conversations s;
     search := search s; selectedConversationId := selectedConversationId s;
     viewingConversation := viewingConversation s;
     downloadedConversations := downloadedConversations s;
     deleteConfirm := deleteConfirm s; isDownloaded := isDownloaded s;
     isAttached := isAttached s; isSelectionMode := isSelectionMode s;
     selectedIds := f (selectedIds s); batchDeleteConfirm := batchDeleteConfirm s |}.

Definition with_batchDeleteConfirm (f : bool -> bool) (s : HistoryState) : HistoryState :=
  {| isLoading := isLoading s; conversations := conversations s;
     search := search s; selectedConversationId := selectedConversationId s;
     viewingConversation := viewingConversation s;
     downloadedConversations := downloadedConversations s;
     deleteConfirm := deleteConfirm s; isDownloaded := isDownloaded s;
     isAttached := isAttached s; isSelectionMode := isSelectionMode s;
     selectedIds := selectedIds s; batchDeleteConfirm := f (batchDeleteConfirm s) |}.

(* ================================================================== *)
(** ** Programs: state updates, effects, exceptions and awaits *)
(* ================================================================== *)

(** A thrown value or a rejected promise. *)
Definition Err : Type := string.

Inductive Result (A : Type) : Type :=
| Resolved (a : A)
| Rejected (e : Err).
Arguments Resolved {A} a.
Arguments Rejected {A} e.

(** The callbacks the hook hands to [setTimeout]. *)
Inductive TimerCallback : Type :=
| ClearDownloadedConversation (conversationId : jsstring)
| ClearIsAttached
| ClearIsDownloaded.

(** What a run of an action does to the outside, in the order it does it. *)
Inductive Event : Type :=
| StopPropagation
| ConsoleError (msg : string)
| DispatchEvent (name : string) (detail : jsstring)
| SetTimeout (cb : TimerCallback) (ms : Z)
| LocalStorageSetItem (key : string) (conversationId : jsstring)
| CallGetAllConversations
| CallDeleteConversation (conversationId : jsstring)
| CallSaveFile (filename markdown : jsstring).

(** The body of an action. [SetState] is a call of a setter, [Perform] an
    effect that returns nothing, [SaveFile] the synchronous file-save
    sequence of the browser (it may throw), and the two [Await] nodes suspend
    the action until the conversation store settles the promise. *)
Inductive Prog (A : Type) : Type :=
| Ret (a : A)
| Throw (e : Err)
| SetState (f : HistoryState -> HistoryState) (k : Prog A)
| Perform (ev : Event) (k : Prog A)
| SaveFile (filename markdown : jsstring) (k : Result unit -> Prog A)
| AwaitGetAll (k : Result (list ChatConversation) -> Prog A)
| AwaitDelete (conversationId : jsstring) (k : Result unit -> Prog A).
Arguments Ret {A} a.
Arguments Throw {A} e.
Arguments SetState {A} f k.
Arguments Perform {A} ev k.
Arguments SaveFile {A} filename markdown k.
Arguments AwaitGetAll {A} k.
Arguments AwaitDelete {A} conversationId k.

Fixpoint bind {A B : Type} (p : Prog A) (g : A -> Prog B) : Prog B :=
  match p with
  | Ret a => g a
  | Throw e => Throw e
  | SetState f k => SetState f (bind k g)
  | Perform ev k => Perform ev (bind k g)
  | SaveFile fn md k => SaveFile fn md (fun r => bind (k r) g)
  | AwaitGetAll k => AwaitGetAll (fun r => bind (k r) g)
  | AwaitDelete cid k => AwaitDelete cid (fun r => bind (k r) g)
  end.

Declare Scope prog_scope.
Delimit Scope prog_scope with prog.
Notation "x <- p ;; q" := (bind p (fun x => q))
  (at level 61, p at next level, right associativity) : prog_scope.
Notation "p ;; q" := (bind p (fun _ => q))
  (at level 61, right associativity) : prog_scope.
Open Scope prog_scope.

(** [try { p } catch (error) { h error }] *)
Fixpoint try_catch {A : Type} (p : Prog A) (h : Err -> Prog A) : Prog A :=
  match p with
  | Ret a => Ret a
  | Throw e => h e
  | SetState f k => SetState f (try_catch k h)
  | Perform ev k => Perform ev (try_catch k h)
  | SaveFile fn md k => SaveFile fn md (fun r => try_catch (k r) h)
  | AwaitGetAll k => AwaitGetAll (fun r => try_catch (k r) h)
  | AwaitDelete cid k => AwaitDelete cid (fun r => try_catch (k r) h)
  end.

(** [try { p } finally { q }]: [q] runs however [p] completes, and the
    completion of [p] stands unless [q] throws. *)
Fixpoint finally {A : Type} (p : Prog A) (q : Prog unit) : Prog A :=
  match p with
  | Ret a => q ;; Ret a
  | Throw e => q ;; Throw e
  | SetState f k => SetState f (finally k q)
  | Perform ev k => Perform ev (finally k q)
  | SaveFile fn md k => SaveFile fn md (fun r => finally (k r) q)
  | AwaitGetAll k => AwaitGetAll (fun r => finally (k r) q)
  | AwaitDelete cid k => AwaitDelete cid (fun r => finally (k r) q)
  end.

Definition try_catch_finally {A : Type} (p : Prog A) (h : Err -> Prog A)
           (q : Prog unit) : Prog A :=
  finally (try_catch p h) q.

(** A promise that rejects, or a call that throws, raises at the point where
    it is awaited or made. *)
Definition settle {A : Type} (r : Result A) : Prog A :=
  match r with
  | Resolved a => Ret a
  | Rejected e => Throw e
  end.

Definition setState (f : HistoryState -> HistoryState) : Prog unit := SetState f (Ret tt).
Definition perform (ev : Event) : Prog unit := Perform ev (Ret tt).
Definition getAllConversations : Prog (list ChatConversation) := AwaitGetAll settle.
Definition deleteConversation (conversationId : jsstring) : Prog unit :=
  AwaitDelete conversationId settle.
Definition saveFile (filename markdown : jsstring) : Prog unit :=
  SaveFile filename markdown settle.

(** [for (const x of xs) { body x }] and [xs.forEach(x => body x)]. *)
Fixpoint for_of {A : Type} (xs : list A) (body : A -> Prog unit) : Prog unit :=
  match xs with
  | [] => Ret tt
  | x :: xs' => body x ;; for_of xs' body
  end.

(* ================================================================== *)
(** ** The actions of [useHistory] *)
(* ================================================================== *)

Section Hook.

Variable toLowerCase : jsstring -> jsstring.
Variable upper16 : N -> N.
Variable DOWNLOAD_SUCCESS_DISPLAY_MS : Z.

(** [generateConversationMarkdown] as it behaves at run time, where it can
    raise (the conversation comes from the store unchecked). In the hook it
    is [fun c => Resolved (generateConversationMarkdown .. c)]. *)
Variable renderMarkdown : ChatConversation -> Result jsstring.

(** An action that reads a cell reads the value of the render in which the
    action was created: [render] below. Functional setters see the latest
    value instead. *)

Definition refreshConversations : Prog unit :=
  try_catch_finally
    (setState (with_isLoading (fun _ => true)) ;;
     loadedConversations <- getAllConversations ;;
     setState (with_conversations (fun _ => loadedConversations)))
    (fun error =>
       perform (ConsoleError "Failed to load conversations:") ;;
       setState (with_conversations (fun _ => [])))
    (setState (with_isLoading (fun _ => false))).

Definition handleViewConversation (conversation : ChatConversation) : Prog unit :=
  setState (with_viewingConversation (fun _ => Some conversation)).

(** [saveFile] stands for the statements from [new Blob] to
    [URL.revokeObjectURL], any of which may throw. The [return] inside
    [catch] skips the timer: the [try] statement yields whether the function
    goes on. *)
Definition handleDownloadConversation (conversation : ChatConversation) : Prog unit :=
  perform StopPropagation ;;
  setState (with_downloadedConversations
              (fun prev => JsSet.add (id conversation) (JsSet.copy prev))) ;;
  continue <-
    try_catch
      (markdown <- settle (renderMarkdown conversation) ;;
       saveFile (generateFilename toLowerCase upper16 (title conversation)) markdown ;;
       Ret true)
      (fun error =>
         perform (ConsoleError "Failed to download conversation:") ;;
         setState (with_downloadedConversations
                     (fun prev =>
                        let newSet := JsSet.copy prev in
                        JsSet.delete (id conversation) newSet)) ;;
         Ret false) ;;
  if continue : bool
  then perform (SetTimeout (ClearDownloadedConversation (id conversation))
                           DOWNLOAD_SUCCESS_DISPLAY_MS)
  else Ret tt.

Definition handleDeleteConfirm (conversationId : jsstring) : Prog unit :=
  setState (with_deleteConfirm (fun _ => Some conversationId)).

Definition confirmDelete (render : HistoryState) : Prog unit :=
  match deleteConfirm render with
  | None => Ret tt
  | Some target =>
      if JsString.falsy target then Ret tt
      else
        try_catch_finally
          (setState (with_selectedConversationId (fun _ => None)) ;;
           setState (with_viewingConversation (fun _ => None)) ;;
           deleteConversation target ;;
           setState (with_conversations
                       (fun prev =>
                          filter (fun c => negb (JsString.eqb (id c) target)) prev)) ;;
           perform (DispatchEvent "conversationDeleted" target))
          (fun error => perform (ConsoleError "Failed to delete conversation:"))
          (setState (with_deleteConfirm (fun _ => None)))
  end.

Definition cancelDelete : Prog unit :=
  setState (with_deleteConfirm (fun _ => None)).

Definition toggleSelectionMode : Prog unit :=
  setState (with_isSelectionMode (fun prev => negb prev)) ;;
  setState (with_selectedIds (fun _ => JsSet.empty)).

Definition toggleSelectItem (conversationId : jsstring) : Prog unit :=
  setState (with_selectedIds
              (fun prev =>
                 let newSet := JsSet.copy prev in
                 if JsSet.has conversationId newSet
                 then JsSet.delete conversationId newSet
                 else JsSet.add conversationId newSet)).

Definition selectAll (render : HistoryState) : Prog unit :=
  setState (with_selectedIds
              (fun _ => JsSet.of_list (map id (conversations render)))).

Definition deselectAll : Prog unit :=
  setState (with_selectedIds (fun _ => JsSet.empty)).

Definition handleBatchDeleteConfirm (render : HistoryState) : Prog unit :=
  if (0 <? JsSet.size (selectedIds render))%nat
  then setState (with_batchDeleteConfirm (fun _ => true))
  else Ret tt.

Definition confirmBatchDelete (render : HistoryState) : Prog unit :=
  if (JsSet.size (selectedIds render) =? 0)%nat then Ret tt
  else
    try_catch_finally
      (for_of (selectedIds render) (fun cid => deleteConversation cid) ;;
       setState (with_conversations
                   (fun prev =>
                      filter (fun c => negb (JsSet.has (id c) (selectedIds render))) prev)) ;;
       for_of (selectedIds render)
              (fun cid => perform (DispatchEvent "conversationDeleted" cid)) ;;
       setState (with_selectedIds (fun _ => JsSet.empty)) ;;
       setState (with_isSelectionMode (fun _ => false)))
      (fun error => perform (ConsoleError "Failed to delete conversations:"))
      (setState (with_batchDeleteConfirm (fun _ => false))).

Definition cancelBatchDelete : Prog unit :=
  setState (with_batchDeleteConfirm (fun _ => false)).

Definition handleAttachToOverlay (conversationId : jsstring) : Prog unit :=
  perform (LocalStorageSetItem "pluely-conversation-selected" conversationId) ;;
  setState (with_isAttached (fun _ => true)) ;;
  perform (SetTimeout ClearIsAttached DOWNLOAD_SUCCESS_DISPLAY_MS).

Definition handleDownload (conversation : option ChatConversation) : Prog unit :=
  match conversation with
  | Some c =>
      handleDownloadConversation c ;;
      setState (with_isDownloaded (fun _ => true)) ;;
      perform (SetTimeout ClearIsDownloaded DOWNLOAD_SUCCESS_DISPLAY_MS)
  | None => Ret tt
  end.

Definition setSearch (f : jsstring -> jsstring) : Prog unit :=
  setState (with_search f).

(** What an armed timer runs when it fires. *)
Definition timerCallback (cb : TimerCallback) : Prog unit :=
  match cb with
  | ClearDownloadedConversation cid =>
      setState (with_downloadedConversations
                  (fun prev =>
                     let newSet := JsSet.copy prev in
                     JsSet.delete cid newSet))
  | ClearIsAttached => setState (with_isAttached (fun _ => false))
  | ClearIsDownloaded => setState (with_isDownloaded (fun _ => false))
  end.

(** The members of [UseHistoryReturn] a component can call. *)
Inductive Action : Type :=
| RefreshConversations
| HandleViewConversation (conversation : ChatConversation)
| HandleDownloadConversation (conversation : ChatConversation)
| HandleDeleteConfirm (conversationId : jsstring)
| ConfirmDelete
| CancelDelete
| HandleAttachToOverlay (conversationId : jsstring)
| HandleDownload (conversation : option ChatConversation)
| SetSearch (f : jsstring -> jsstring)
| ToggleSelectionMode
| ToggleSelectItem (conversationId : jsstring)
| SelectAll
| DeselectAll
| HandleBatchDeleteConfirm
| ConfirmBatchDelete
| CancelBatchDelete.

Definition body (a : Action) (render : HistoryState) : Prog unit :=
  match a with
  | RefreshConversations => refreshConversations
  | HandleViewConversation c => handleViewConversation c
  | HandleDownloadConversation c => handleDownloadConversation c
  | HandleDeleteConfirm cid => handleDeleteConfirm cid
  | ConfirmDelete => confirmDelete render
  | CancelDelete => cancelDelete
  | HandleAttachToOverlay cid => handleAttachToOverlay cid
  | HandleDownload c => handleDownload c
  | SetSearch f => setSearch f
  | ToggleSelectionMode => toggleSelectionMode
  | ToggleSelectItem cid => toggleSelectItem cid
  | SelectAll => selectAll render
  | DeselectAll => deselectAll
  | HandleBatchDeleteConfirm => handleBatchDeleteConfirm render
  | ConfirmBatchDelete => confirmBatchDelete render
  | CancelBatchDelete => cancelBatchDelete
  end.

End Hook.

(* ================================================================== *)
(** ** Running a program *)
(* ================================================================== *)

(** How the outside answers: the conversation store and the file save. *)
Record Env := {
  getAllConversations_result : Result (list ChatConversation);
  deleteConversation_result : jsstring -> Result unit;
  saveFile_result : jsstring -> jsstring -> Result unit
}.

(** The outcome of a run: how it completed, the cells afterwards, and the
    events in the order they happened. *)
Definition Outcome (A : Type) : Type := (Result A * HistoryState * list Event)%type.

Definition emit {A : Type} (ev : Event) (o : Outcome A) : Outcome A :=
  let '(r, s, evs) := o in (r, s, ev :: evs).

(** A whole action, every promise settled by [env] before anything else
    touches the cells. *)
Fixpoint run {A : Type} (env : Env) (p : Prog A) (s : HistoryState) : Outcome A :=
  match p with
  | Ret a => (Resolved a, s, [])
  | Throw e => (Rejected e, s, [])
  | SetState f k => run env k (f s)
  | Perform ev k => emit ev (run env k s)
  | SaveFile fn md k =>
      emit (CallSaveFile fn md) (run env (k (saveFile_result env fn md)) s)
  | AwaitGetAll k =>
      emit CallGetAllConversations (run env (k (getAllConversations_result env)) s)
  | AwaitDelete cid k =>
      emit (CallDeleteConversation cid) (run env (k (deleteConversation_result env cid)) s)
  end.

Definition result_of {A : Type} (o : Outcome A) : Result A := fst (fst o).
Definition state_of {A : Type} (o : Outcome A) : HistoryState := snd (fst o).
Definition events_of {A : Type} (o : Outcome A) : list Event := snd o.

(** The same, one synchronous stretch at a time: a program runs until it
    completes or awaits the store. *)
Inductive Status (A : Type) : Type :=
| Finished (r : Result A)
| AwaitingGetAll (k : Result (list ChatConversation) -> Prog A)
| AwaitingDelete (conversationId : jsstring) (k : Result unit -> Prog A).
Arguments Finished {A} r.
Arguments AwaitingGetAll {A} k.
Arguments AwaitingDelete {A} conversationId k.

Definition Stretch (A : Type) : Type := (Status A * HistoryState * list Event)%type.

Definition emit' {A : Type} (ev : Event) (o : Stretch A) : Stretch A :=
  let '(r, s, evs) := o in (r, s, ev :: evs).

Fixpoint advance {A : Type} (save : jsstring -> jsstring -> Result unit)
         (p : Prog A) (s : HistoryState) : Stretch A :=
  match p with
  | Ret a => (Finished (Resolved a), s, [])
  | Throw e => (Finished (Rejected e), s, [])
  | SetState f k => advance save k (f s)
  | Perform ev k => emit' ev (advance save k s)
  | SaveFile fn md k => emit' (CallSaveFile fn md) (advance save (k (save fn md)) s)
  | AwaitGetAll k => (AwaitingGetAll k, s, [CallGetAllConversations])
  | AwaitDelete cid k => (AwaitingDelete cid k, s, [CallDeleteConversation cid])
  end.

(* ================================================================== *)
(** ** The hook in use: actions, replies and timers interleaved *)
(* ================================================================== *)

(** An action that awaits the store, waiting for its reply. *)
Inductive Pending : Type :=
| PendingGetAll (k : Result (list ChatConversation) -> Prog unit)
| PendingDelete (conversationId : jsstring) (k : Result unit -> Prog unit).

Record Config := {
  cells : HistoryState;
  inflight : list Pending;
  timers : list TimerCallback
}.

(** The component mounts with the initial cells; the mount effect is a call
    of [refreshConversations]. *)
Definition initialConfig : Config :=
  {| cells := initialState; inflight := []; timers := [] |}.

Definition park (st : Status unit) (l : list Pending) : list Pending :=
  match st with
  | Finished _ => l
  | AwaitingGetAll k => l ++ [PendingGetAll k]
  | AwaitingDelete cid k => l ++ [PendingDelete cid k]
  end.

Definition armed (evs : list Event) : list TimerCallback :=
  flat_map (fun ev => match ev with SetTimeout cb _ => [cb] | _ => [] end) evs.

(** One synchronous stretch of [p] on top of a configuration whose waiting
    actions and timers are [waiting] and [ts]. *)
Definition land (save : jsstring -> jsstring -> Result unit) (p : Prog unit)
           (s : HistoryState) (waiting : list Pending) (ts : list TimerCallback) : Config :=
  let '(st, s', evs) := advance save p s in
  {| cells := s'; inflight := park st waiting; timers := ts ++ armed evs |}.

Section System.

Variable toLowerCase : jsstring -> jsstring.
Variable upper16 : N -> N.
Variable DOWNLOAD_SUCCESS_DISPLAY_MS : Z.
Variable renderMarkdown : ChatConversation -> Result jsstring.

(** Which actions the component allows in which render. *)
Variable allowed : HistoryState -> Action -> bool.

Inductive step : Config -> Config -> Prop :=
| step_action (cfg : Config) (a : Action) save :
    allowed (cells cfg) a = true ->
    step cfg
         (land save
               (body toLowerCase upper16 DOWNLOAD_SUCCESS_DISPLAY_MS renderMarkdown
                     a (cells cfg))
               (cells cfg) (inflight cfg) (timers cfg))
| step_getAll_settled (cfg : Config) pre k post r save :
    inflight cfg = pre ++ PendingGetAll k :: post ->
    step cfg (land save (k r) (cells cfg) (pre ++ post) (timers cfg))
| step_delete_settled (cfg : Config) pre cid k post r save :
    inflight cfg = pre ++ PendingDelete cid k :: post ->
    step cfg (land save (k r) (cells cfg) (pre ++ post) (timers cfg))
| step_timer_fired (cfg : Config) pre cb post save :
    timers cfg = pre ++ cb :: post ->
    step cfg (land save (timerCallback cb) (cells cfg) (inflight cfg) (pre ++ post)).

Inductive reachable : Config -> Prop :=
| reachable_init : reachable initialConfig
| reachable_step (cfg cfg' : Config) :
    reachable cfg -> step cfg cfg' -> reachable cfg'.

End System.

(** Every action at any time. *)
Definition unrestricted (s : HistoryState) (a : Action) : bool := true.

(** The conversation list page offers item selection and "select all" only
    while selection mode is on. *)
Definition asDashboard (s : HistoryState) (a : Action) : bool :=
  match a with
  | ToggleSelectItem _ | SelectAll => isSelectionMode s
  | _ => true
  end.

(** The selection set is non-empty only while selection mode is on. *)
Definition selection_within_mode (s : HistoryState) : Prop :=
  selectedIds s <> JsSet.empty -> isSelectionMode s = true.

(** [wp I Q p s]: started in [s], every synchronous stretch of [p] that ends
    in an await leaves cells satisfying [I], it is resumed in cells
    satisfying [I], and it completes in cells satisfying [Q]. *)
Fixpoint wp {A : Type} (I : HistoryState -> Prop)
         (Q : Result A -> HistoryState -> Prop) (p : Prog A) (s : HistoryState) : Prop :=
  match p with
  | Ret a => Q (Resolved a) s
  | Throw e => Q (Rejected e) s
  | SetState f k => wp I Q k (f s)
  | Perform _ k => wp I Q k s
  | SaveFile _ _ k => forall r, wp I Q (k r) s
  | AwaitGetAll k => I s /\ forall r s', I s' -> wp I Q (k r) s'
  | AwaitDelete _ k => I s /\ forall r s', I s' -> wp I Q (k r) s'
  end.

Definition keeps {A : Type} (I : HistoryState -> Prop) (p : Prog A) (s : HistoryState) : Prop :=
  wp I (fun _ s' => I s') p s.

Definition pending_keeps (I : HistoryState -> Prop) (w : Pending) : Prop :=
  match w with
  | PendingGetAll k => forall r s, I s -> keeps I (k r) s
  | PendingDelete _ k => forall r s, I s -> keeps I (k r) s
  end.

Definition config_keeps (I : HistoryState -> Prop) (cfg : Config) : Prop :=
  I (cells cfg) /\ Forall (pending_keeps I) (inflight cfg).

(** The selection is a set, and it is non-empty only in selection mode. *)
Definition selection_well_formed (s : HistoryState) : Prop :=
  selection_within_mode s /\ NoDup (selectedIds s).

(* ================================================================== *)
(** ** Reading an outcome *)
(* ================================================================== *)

(** [o] followed by what [k] does from where [o] stopped. *)
Definition after {A B : Type} (o : Outcome A)
           (k : Result A -> HistoryState -> Outcome B) : Outcome B :=
  let '(r, s, evs) := o in
  let '(r', s', evs') := k r s in
  (r', s', evs ++ evs').

(** The [conversationDeleted]-style broadcasts of a run: event name and
    payload, in order. *)
Definition broadcasts (evs : list Event) : list (string * jsstring) :=
  flat_map (fun ev => match ev with
                      | DispatchEvent name detail => [(name, detail)]
                      | _ => []
                      end) evs.

(** The store deletions a run attempted, in order. *)
Definition deletions (evs : list Event) : list jsstring :=
  flat_map (fun ev => match ev with
                      | CallDeleteConversation cid => [cid]
                      | _ => []
                      end) evs.

(** A delete confirmation is pending on [cid]: the cell holds [cid] and
    passes the test [if (!deleteConfirm) return]. *)
Definition pendingDelete (render : HistoryState) (cid : jsstring) : Prop :=
  deleteConfirm render = Some cid /\ falsy_cell (deleteConfirm render) = false.

(** How many of the broadcasts carry the payload [cid]. *)
Definition broadcast_count (cid : jsstring) (bs : list (string * jsstring)) : nat :=
  List.length (filter (fun b => JsString.eqb (snd b) cid) bs).

(** What the specification promises of a batch delete whatever the store
    answers: every selected identifier is evicted from the cached list and
    broadcast as deleted. *)
Definition all_selected_evicted_and_broadcast
           (render : HistoryState) (o : Outcome unit) : Prop :=
  forall cid, In cid (selectedIds render) ->
    (forall c, In c (conversations (state_of o)) -> id c <> cid)
    /\ In ("conversationDeleted"%string, cid) (broadcasts (events_of o)).

(** What the specification promises of a batch delete on a non-empty
    selection, whether or not a deletion fails. *)
Definition batch_delete_completes
           (render s : HistoryState) (o : Outcome unit) : Prop :=
  (forall cid, In cid (selectedIds render) -> In cid (deletions (events_of o)))
  /\ conversations (state_of o)
     = filter (fun c => negb (JsSet.has (id c) (selectedIds render))) (conversations s)
  /\ broadcasts (events_of o)
     = map (fun cid => ("conversationDeleted"%string, cid)) (selectedIds render)
  /\ selectedIds (state_of o) = JsSet.empty
  /\ isSelectionMode (state_of o) = false
  /\ batchDeleteConfirm (state_of o) = false.

(* ================================================================== *)
(** ** The export formats as the specification words them *)
(* ================================================================== *)

(** Blocks separated by [sep], none after the last. *)
Fixpoint join (sep : jsstring) (blocks : list jsstring) : jsstring :=
  match blocks with
  | [] => []
  | [b] => b
  | b :: rest => b ++ sep ++ join sep rest
  end.

(** A level-2 heading: the upper-cased role, [": "], the content. *)
Definition message_block (toUpperCase : jsstring -> jsstring) (m : ChatMessage) : jsstring :=
  JsString.lit "## " ++ toUpperCase (role m) ++ JsString.lit ": " ++ content m
    ++ JsString.nl.

(** Heading, metadata lines, rule, then the message blocks with one empty
    line between two of them. *)
Definition markdown_document (toLocaleString : Z -> jsstring)
           (toUpperCase : jsstring -> jsstring) (c : ChatConversation) : jsstring :=
  (JsString.lit "# " ++ title c ++ JsString.nl)
    ++ JsString.nl
    ++ (JsString.lit "**Created:** " ++ toLocaleString (createdAt c) ++ JsString.nl)
    ++ (JsString.lit "**Updated:** " ++ toLocaleString (updatedAt c) ++ JsString.nl)
    ++ (JsString.lit "**Messages:** " ++ JsString.of_nat (List.length (messages c))
          ++ JsString.nl)
    ++ JsString.nl
    ++ (JsString.lit "---" ++ JsString.nl)
    ++ JsString.nl
    ++ join JsString.nl (map (message_block toUpperCase) (messages c)).

(** A unit of [[a-zA-Z0-9]]. *)
Definition alphanumeric (c : N) : bool :=
  JsString.is_lower c || JsString.is_upper c || JsString.is_digit c.

(** Replace what is not alphanumeric by ['_'], lower-case, keep at most 16
    units, append [".md"]. *)
Definition filename_of_title (title : jsstring) : jsstring :=
  firstn 16
    (map JsString.lower_unit
         (map (fun c => if alphanumeric c then c else 95%N) title))
    ++ JsString.lit ".md".

(* ================================================================== *)
(** ** A concrete engine, for running examples *)
(* ================================================================== *)

Module Sample.

(** Case mappings restricted to Basic Latin, and a fixed rendering of
    dates. *)
Definition toLowerCase (s : jsstring) : jsstring := map JsString.lower_unit s.
Definition toUpperCase (s : jsstring) : jsstring := map JsString.upper_unit s.
Definition upper16 (c : N) : N := c.
Definition toLocaleString (t : Z) : jsstring :=
  JsString.lit "t" ++ JsString.of_nat (Z.to_nat t).
Definition DOWNLOAD_SUCCESS_DISPLAY_MS : Z := 2000.

Definition renderMarkdown (c : ChatConversation) : Result jsstring :=
  Resolved (generateConversationMarkdown toLocaleString toUpperCase c).

Definition conv (name : string) : ChatConversation :=
  {| id := JsString.lit name; title := JsString.lit name;
     createdAt := 1; updatedAt := 2; messages := [] |}.

(** A store in which deleting the conversations listed in [failing]
    fails and everything else succeeds. *)
Definition env (listed : list ChatConversation) (failing : list jsstring) : Env :=
  {| getAllConversations_result := Resolved listed;
     deleteConversation_result :=
       fun cid => if JsSet.has cid failing then Rejected "delete failed"%string
                  else Resolved tt;
     saveFile_result := fun _ _ => Resolved tt |}.

Definition state (cached : list ChatConversation) (selected : list jsstring)
  : HistoryState :=
  with_batchDeleteConfirm (fun _ => true)
    (with_isSelectionMode (fun _ => true)
       (with_selectedIds (fun _ => selected)
          (with_conversations (fun _ => cached) initialState))).

End Sample.

(* ================================================================== *)
(** ** More of JavaScript's strings, arrays and objects *)
(* ================================================================== *)

Module JsText.

(** [s.startsWith(p)] *)
Fixpoint startsWith (s p : jsstring) {struct p} : bool :=
  match p, s with
  | [], _ => true
  | _ :: _, [] => false
  | a :: p', b :: s' => N.eqb a b && startsWith s' p'
  end.

(** [s.includes(p)]: [p] starts at some position of [s]. *)
Fixpoint includes (s p : jsstring) : bool :=
  startsWith s p
  || match s with
     | [] => false
     | _ :: s' => includes s' p
     end.

End JsText.

Module JsArray.

(** One step of a stable sort: [x] goes in front of the first element that
    the comparator puts after it. *)
Fixpoint insert {A : Type} (compare : A -> A -> Z) (x : A) (sorted : list A) : list A :=
  match sorted with
  | [] => [x]
  | y :: rest =>
      if (0 <? compare y x)%Z then x :: y :: rest
      else y :: insert compare x rest
  end.

(** [xs.sort(compare)] for a comparator that orders consistently: the sort
    is stable, so its result is the one of inserting the elements from left
    to right. *)
Definition sort {A : Type} (compare : A -> A -> Z) (xs : list A) : list A :=
  fold_left (fun sorted x => insert compare x sorted) xs [].

End JsArray.

Module JsRecord.

(** A [Record<string, ChatConversation[]>] built from [{}] with keys that
    are neither array indices nor inherited property names: its own
    properties in insertion order, which is the order of [Object.keys]. *)
Definition t := list (jsstring * list ChatConversation).

(** [o[key]], [None] for [undefined]. *)
Fixpoint get (key : jsstring) (o : t) : option (list ChatConversation) :=
  match o with
  | [] => None
  | (k, v) :: o' => if JsString.eqb k key then Some v else get key o'
  end.

(** [o[key] = v] *)
Fixpoint set (key : jsstring) (v : list ChatConversation) (o : t) : t :=
  match o with
  | [] => [(key, v)]
  | (k, w) :: o' =>
      if JsString.eqb k key then (k, v) :: o' else (k, w) :: set key v o'
  end.

(** [Object.keys(o)] *)
Definition keys (o : t) : list jsstring := map fst o.

End JsRecord.

(* ================================================================== *)
(** ** The conversation list page *)
(* ================================================================== *)

Section Dashboard.

(** [moment(t).format("YYYY-MM-DD")] and the time value of [moment(key)]
    for such a key. *)
Variable formatDay : Z -> jsstring.
Variable momentOf : jsstring -> Z.
Variable toLowerCase : jsstring -> jsstring.

(** The callback of [conversations.reduce]: [push] appends to the array
    stored under the key. *)
Definition groupStep (acc : JsRecord.t) (doc : ChatConversation) : JsRecord.t :=
  let dateKey := formatDay (updatedAt doc) in
  let acc :=
    match JsRecord.get dateKey acc with
    | None => JsRecord.set dateKey [] acc
    | Some _ => acc
    end in
  match JsRecord.get dateKey acc with
  | Some docs => JsRecord.set dateKey (docs ++ [doc]) acc
  | None => acc
  end.

Definition groupedConversations (s : HistoryState) : JsRecord.t :=
  fold_left groupStep (conversations s) [].

(** Most recent day first: the comparator is [moment(b).diff(moment(a))]. *)
Definition sortedDates (s : HistoryState) : list jsstring :=
  JsArray.sort (fun a b => (momentOf b - momentOf a)%Z)
               (JsRecord.keys (groupedConversations s)).

(** The predicate of [sortedDates.filter]: with a search, a day stays when
    one of its conversations has the search in its title, case ignored. *)
Definition dateShown (s : HistoryState) (dateKey : jsstring) : bool :=
  if (JsString.length (search s) =? 0)%Z then true
  else
    match JsRecord.get dateKey (groupedConversations s) with
    | Some docs =>
        existsb (fun doc =>
                   JsText.includes
                     (toLowerCase (title doc))
                     (let needle := toLowerCase (search s) in
                      if JsString.falsy needle then [] else needle))
                docs
    | None => false
    end.

(** The days rendered, each with the cards under it. *)
Definition renderedDays (s : HistoryState) : list (jsstring * list ChatConversation) :=
  map (fun dateKey =>
         (dateKey,
          match JsRecord.get dateKey (groupedConversations s) with
          | Some docs => docs
          | None => []
          end))
      (filter (dateShown s) (sortedDates s)).

Definition renderedCards (s : HistoryState) : list ChatConversation :=
  flat_map snd (renderedDays s).

(** What the user can do on the page. A card or a checkbox is named by its
    position among the rendered cards. *)
Inductive DashboardEvent : Type :=
| ChangeSearch (value : jsstring)
| ClickSelect
| ClickCancel
| ClickSelectAll
| ClickDelete
| ClickCard (position : nat)
| ClickCheckbox (position : nat)
| ClickDialogCancel
| ClickDialogConfirm.

Inductive Reaction : Type :=
| Ignored
| Navigate (path : jsstring)
| Handle (p : Prog unit).

(** The handler the page has attached to the control, if the control is
    rendered and enabled in the render [s]. With no conversation only the
    empty view is rendered; the dialog is rendered whenever it is open. A
    click on a checkbox runs the checkbox's own [onClick], which stops the
    event from reaching the card, and then [onCheckedChange]. *)
Definition onEvent (s : HistoryState) (ev : DashboardEvent) : Reaction :=
  let listed := negb (List.length (conversations s) =? 0)%nat in
  match ev with
  | ChangeSearch value =>
      if listed then Handle (setSearch (fun _ => value)) else Ignored
  | ClickSelect =>
      if listed && negb (isSelectionMode s) then Handle toggleSelectionMode else Ignored
  | ClickCancel =>
      if listed && isSelectionMode s then Handle toggleSelectionMode else Ignored
  | ClickSelectAll =>
      if listed && isSelectionMode s
      then Handle (if (JsSet.size (selectedIds s) =? List.length (conversations s))%nat
                   then deselectAll
                   else selectAll s)
      else Ignored
  | ClickDelete =>
      if listed && isSelectionMode s && negb (JsSet.size (selectedIds s) =? 0)%nat
      then Handle (handleBatchDeleteConfirm s)
      else Ignored
  | ClickCard position =>
      if listed
      then match nth_error (renderedCards s) position with
           | Some doc =>
               if isSelectionMode s then Handle (toggleSelectItem (id doc))
               else Navigate (JsString.lit "/chats/view/" ++ id doc)
           | None => Ignored
           end
      else Ignored
  | ClickCheckbox position =>
      if listed && isSelectionMode s
      then match nth_error (renderedCards s) position with
           | Some doc =>
               Handle (perform StopPropagation ;; toggleSelectItem (id doc))
           | None => Ignored
           end
      else Ignored
  | ClickDialogCancel =>
      if batchDeleteConfirm s then Handle cancelBatchDelete else Ignored
  | ClickDialogConfirm =>
      if batchDeleteConfirm s then Handle (confirmBatchDelete s) else Ignored
  end.

(** The page from mount on: the hook's mount effect has called
    [refreshConversations]; then the user acts on what is rendered and the
    store answers what was asked, in any order. *)
Definition mounted (save : jsstring -> jsstring -> Result unit) : Config :=
  land save refreshConversations initialState [] [].

Inductive page_step : Config -> Config -> Prop :=
| page_event (cfg : Config) (ev : DashboardEvent) (p : Prog unit) save :
    onEvent (cells cfg) ev = Handle p ->
    page_step cfg (land save p (cells cfg) (inflight cfg) (timers cfg))
| page_getAll_settled (cfg : Config) pre k post r save :
    inflight cfg = pre ++ PendingGetAll k :: post ->
    page_step cfg (land save (k r) (cells cfg) (pre ++ post) (timers cfg))
| page_delete_settled (cfg : Config) pre cid k post r save :
    inflight cfg = pre ++ PendingDelete cid k :: post ->
    page_step cfg (land save (k r) (cells cfg) (pre ++ post) (timers cfg))
| page_timer_fired (cfg : Config) pre cb post save :
    timers cfg = pre ++ cb :: post ->
    page_step cfg (land save (timerCallback cb) (cells cfg) (inflight cfg) (pre ++ post)).

Inductive on_page : Config -> Prop :=
| on_page_mounted save : on_page (mounted save)
| on_page_step (cfg cfg' : Config) :
    on_page cfg -> page_step cfg cfg' -> on_page cfg'.

End Dashboard.

(** Every selected identifier is the identifier of a cached conversation. *)
Definition selection_cached (s : HistoryState) : Prop :=
  forall x, In x (selectedIds s) -> exists c, In c (conversations s) /\ id c = x.

(** The same day, as the page groups conversations. *)
Definition same_day (formatDay : Z -> jsstring) (a b : ChatConversation) : Prop :=
  formatDay (updatedAt a) = formatDay (updatedAt b).

(** The selection as the page keeps it: within selection mode, without
    repetition, and made of identifiers of cached conversations. *)
Definition page_selection (s : HistoryState) : Prop :=
  selection_well_formed s /\ selection_cached s.

(** Either the page still awaits the first answer of the store, or the
    selection is as the page keeps it, now and after every pending answer. *)
Definition page_invariant (cfg : Config) : Prop :=
  (exists save, cfg = mounted save) \/ config_keeps page_selection cfg.

(* ================================================================== *)
(** ** The multi-monitor warning panel *)
(* ================================================================== *)

Module Warning.

(** What [check_multi_monitor_support] answers. *)
Record MultiMonitorSupport := {
  supported : bool;
  session_type : jsstring;
  available_tools : list jsstring;
  missing_tools : list jsstring;
  install_command : jsstring
}.

(** The [useState] cells of the panel. *)
Record State := {
  support : option MultiMonitorSupport;
  loading : bool;
  copied : bool;
  dismissed : bool
}.

Definition initial : State :=
  {| support := None; loading := true; copied := false; dismissed := false |}.

(** [localStorage], by key. *)
Definition Storage : Type := string -> option jsstring.

Definition getItem (key : string) (storage : Storage) : option jsstring := storage key.

Definition setItem (key : string) (value : jsstring) (storage : Storage) : Storage :=
  fun k => if String.eqb key k then Some value else storage k.

Definition dismissedKey : string := "multi_monitor_warning_dismissed".

(** [checkSupport] from the moment the native call settles; nothing happens
    before its [await]. The stored dismissal is read only after a successful
    call. *)
Definition checkSupport (showAlways : bool) (reply : Result MultiMonitorSupport)
           (storage : Storage) (s : State) : State :=
  let s :=
    match reply with
    | Resolved result =>
        let s := {| support := Some result; loading := loading s;
                    copied := copied s; dismissed := dismissed s |} in
        let wasDismissed := getItem dismissedKey storage in
        if negb (falsy_cell wasDismissed) && negb showAlways
        then {| support := support s; loading := loading s;
                copied := copied s; dismissed := true |}
        else s
    | Rejected _ => s
    end in
  {| support := support s; loading := false; copied := copied s;
     dismissed := dismissed s |}.

(** [handleCopyCommand]; [written] tells whether the clipboard accepted the
    text. The result lists the delays of the timers armed. *)
Definition handleCopyCommand (written : bool) (s : State) : State * list Z :=
  match support s with
  | Some sup =>
      if JsString.falsy (install_command sup) then (s, [])
      else if written
           then ({| support := support s; loading := loading s; copied := true;
                    dismissed := dismissed s |}, [2000%Z])
           else (s, [])
  | None => (s, [])
  end.

(** The callback of that timer. *)
Definition copiedTimeout (s : State) : State :=
  {| support := support s; loading := loading s; copied := false;
     dismissed := dismissed s |}.

Definition handleDismiss (s : State) (storage : Storage) : State * Storage :=
  ({| support := support s; loading := loading s; copied := copied s;
      dismissed := true |},
   setItem dismissedKey (JsString.lit "true") storage).

(** What the component returns: nothing, the success card, or the warning
    card with its optional parts. *)
Inductive Panel : Type :=
| Hidden
| Active (session tools : jsstring)
| Limited (dismissButton : bool) (session : jsstring)
          (available missing : option jsstring)
          (command : option (jsstring * bool)).

Definition tools_line (tools : list jsstring) : option jsstring :=
  if (0 <? List.length tools)%nat then Some (join (JsString.lit ", ") tools) else None.

Definition render (showAlways : bool) (s : State) : Panel :=
  if loading s || dismissed s then Hidden
  else
    match support s with
    | Some sup =>
        if supported sup && negb showAlways then Hidden
        else if supported sup && showAlways
             then Active (session_type sup)
                         (join (JsString.lit ", ") (available_tools sup))
             else Limited (negb showAlways)
                          (if JsString.falsy (session_type sup)
                           then JsString.lit "unknown" else session_type sup)
                          (tools_line (available_tools sup))
                          (tools_line (missing_tools sup))
                          (if negb (JsString.falsy (install_command sup))
                              && negb (JsText.startsWith (install_command sup)
                                                         (JsString.lit "#"))
                           then Some (install_command sup, copied s) else None)
    | None => Limited (negb showAlways) (JsString.lit "unknown") None None None
    end.

(** What can happen to a mounted panel: the native call settles, once; the
    user clicks a button that is rendered; the copy timer fires. *)
Inductive PanelEvent : Type :=
| CheckSettled (reply : Result MultiMonitorSupport)
| ClickDismiss
| ClickCopy (written : bool)
| CopiedTimeout.

Definition next (showAlways : bool) (ev : PanelEvent) (w : State * Storage)
  : option (State * Storage) :=
  let '(s, storage) := w in
  match ev with
  | CheckSettled reply =>
      if loading s then Some (checkSupport showAlways reply storage s, storage) else None
  | ClickDismiss =>
      match render showAlways s with
      | Limited true _ _ _ _ => Some (handleDismiss s storage)
      | _ => None
      end
  | ClickCopy written =>
      match render showAlways s with
      | Limited _ _ _ _ (Some _) => Some (fst (handleCopyCommand written s), storage)
      | _ => None
      end
  | CopiedTimeout => Some (copiedTimeout s, storage)
  end.

Inductive reaches (showAlways : bool) (storage0 : Storage) : State * Storage -> Prop :=
| reaches_mounted : reaches showAlways storage0 (initial, storage0)
| reaches_next (w w' : State * Storage) (ev : PanelEvent) :
    reaches showAlways storage0 w -> next showAlways ev w = Some w' ->
    reaches showAlways storage0 w'.

End Warning.


(* ================================================================== *)
(** * Properties *)
(* ================================================================== *)

(** ** Strings and sets *)

Lemma JsString_eqb_eq (a b : jsstring) : JsString.eqb a b = true <-> a = b.
Proof.
  revert b; induction a as [|x a IH]; intros [|y b]; simpl; split; intro H;
    try reflexivity; try discriminate.
  - apply andb_true_iff in H as [Hx Ha].
    apply N.eqb_eq in Hx. apply IH in Ha. congruence.
  - injection H as -> ->. rewrite N.eqb_refl. simpl. now apply IH.
Qed.

Lemma JsString_eqb_refl (a : jsstring) : JsString.eqb a a = true.
Proof. now apply JsString_eqb_eq. Qed.

Lemma JsString_eqb_neq (a b : jsstring) : JsString.eqb a b = false <-> a <> b.
Proof.
  split; intro H.
  - intro E. apply JsString_eqb_eq in E. congruence.
  - destruct (JsString.eqb a b) eqn:E; [|reflexivity].
    apply JsString_eqb_eq in E. contradiction.
Qed.

Lemma JsSet_has_In (x : jsstring) (s : JsSet.t) : JsSet.has x s = true <-> In x s.
Proof.
  unfold JsSet.has. rewrite existsb_exists. split.
  - intros (y & Hy & E). apply JsString_eqb_eq in E. now subst.
  - intro H. exists x. split; [assumption | apply JsString_eqb_refl].
Qed.

Lemma JsSet_has_delete (x : jsstring) (s : JsSet.t) :
  JsSet.has x (JsSet.delete x s) = false.
Proof.
  destruct (JsSet.has x (JsSet.delete x s)) eqn:E; [|reflexivity].
  apply JsSet_has_In in E. unfold JsSet.delete in E.
  apply filter_In in E as [_ E]. rewrite JsString_eqb_refl in E. discriminate.
Qed.

(** ** Markdown export *)

Lemma join_cons2 (sep b b' : jsstring) (rest : list jsstring) :
  join sep (b :: b' :: rest) = b ++ sep ++ join sep (b' :: rest).
Proof. reflexivity. Qed.

Section MarkdownFacts.

Variable toUpperCase : jsstring -> jsstring.

Lemma forEach_from_join (n : nat) (l : list ChatMessage) :
  forall (index : nat) (acc : jsstring),
    (index + List.length l = n)%nat ->
    forEach_from (appendMessage toUpperCase n) l index acc
    = acc ++ join JsString.nl (map (message_block toUpperCase) l).
Proof.
  induction l as [|m l IH]; intros index acc Hn.
  - simpl. now rewrite app_nil_r.
  - cbn [forEach_from]. destruct l as [|m' l'].
    + cbn [forEach_from map join]. unfold appendMessage, message_block.
      replace (Z.of_nat index <? Z.of_nat n - 1)%Z with false
        by (symmetry; apply Z.ltb_ge; simpl in Hn; lia).
      reflexivity.
    + rewrite IH by (simpl in *; lia).
      cbn [map]. rewrite join_cons2.
      unfold appendMessage, message_block.
      replace (Z.of_nat index <? Z.of_nat n - 1)%Z with true
        by (symmetry; apply Z.ltb_lt; simpl in Hn; lia).
      now rewrite <- !app_assoc.
Qed.

End MarkdownFacts.

(** The blocks of a joined sequence end with the last block: nothing follows
    the final message. *)
Lemma join_last (sep : jsstring) (blocks : list jsstring) (b : jsstring) :
  exists before, join sep (blocks ++ [b]) = before ++ b.
Proof.
  induction blocks as [|x blocks [before IH]].
  - now exists [].
  - exists (x ++ sep ++ before).
    change ((x :: blocks) ++ [b]) with (x :: (blocks ++ [b])).
    destruct (blocks ++ [b]) as [|y rest] eqn:E.
    + now destruct blocks.
    + rewrite join_cons2, IH. now rewrite <- !app_assoc.
Qed.

(** C5: the document produced for download is the level-1 heading with the
    title, the created / updated / message-count lines, a horizontal rule,
    and then one level-2 block [ROLE: content] per message in order, with
    exactly one empty line between two blocks and none after the last. *)
Theorem generateConversationMarkdown_document
        (toLocaleString : Z -> jsstring) (toUpperCase : jsstring -> jsstring)
        (c : ChatConversation) :
  generateConversationMarkdown toLocaleString toUpperCase c
  = markdown_document toLocaleString toUpperCase c.
Proof.
  unfold generateConversationMarkdown, markdown_document, forEach.
  rewrite (forEach_from_join toUpperCase (n := List.length (messages c)))
    by reflexivity.
  now rewrite <- !app_assoc.
Qed.

(** The scenario of the specification: title [Test/Chat?], a user message
    [Hi] and an assistant message [Hello]. *)
Example generateConversationMarkdown_scenario :
  generateConversationMarkdown Sample.toLocaleString Sample.toUpperCase
    {| id := JsString.lit "c1"; title := JsString.lit "Test/Chat?";
       createdAt := 1; updatedAt := 2;
       messages := [ {| role := JsString.lit "user"; content := JsString.lit "Hi" |};
                     {| role := JsString.lit "assistant";
                        content := JsString.lit "Hello" |} ] |}
  = JsString.lit "# Test/Chat?" ++ JsString.nl ++ JsString.nl
      ++ JsString.lit "**Created:** t1" ++ JsString.nl
      ++ JsString.lit "**Updated:** t2" ++ JsString.nl
      ++ JsString.lit "**Messages:** 2" ++ JsString.nl ++ JsString.nl
      ++ JsString.lit "---" ++ JsString.nl ++ JsString.nl
      ++ JsString.lit "## USER: Hi" ++ JsString.nl
      ++ JsString.nl
      ++ JsString.lit "## ASSISTANT: Hello" ++ JsString.nl.
Proof. vm_compute. reflexivity. Qed.

(** ** File names *)

Lemma alphanumeric_ascii (c : N) : alphanumeric c = true -> (c < 128)%N.
Proof.
  unfold alphanumeric, JsString.is_lower, JsString.is_upper, JsString.is_digit.
  rewrite !orb_true_iff, !andb_true_iff, !N.leb_le. lia.
Qed.

Lemma not_alphanumeric_above (c : N) : (128 <= c)%N -> alphanumeric c = false.
Proof.
  intro H. destruct (alphanumeric c) eqn:E; [|reflexivity].
  apply alphanumeric_ascii in E. lia.
Qed.

Lemma below_128 (P : N -> bool) :
  forallb (fun n => P (N.of_nat n)) (seq 0 128) = true ->
  forall c, (c < 128)%N -> P c = true.
Proof.
  intros H c Hc. rewrite forallb_forall in H.
  rewrite <- (N2Nat.id c). apply H. apply in_seq. lia.
Qed.

Section RegExpFacts.

Variable upper16 : N -> N.

Lemma canonicalize_above (ch : N) :
  (128 <= ch)%N -> (128 <= RegExp.canonicalize upper16 ch)%N.
Proof.
  intro H. unfold RegExp.canonicalize.
  destruct (ch <? 128)%N eqn:E; [apply N.ltb_lt in E; lia|].
  cbv zeta. destruct (upper16 ch <? 128)%N eqn:E'; [assumption|].
  now apply N.ltb_ge in E'.
Qed.

Lemma canonicalize_members :
  forallb (fun a => (RegExp.canonicalize upper16 a <? 128)%N) RegExp.class_members
  = true.
Proof. vm_compute. reflexivity. Qed.

Lemma no_member_above (ch : N) :
  (128 <= ch)%N ->
  existsb (fun a => N.eqb (RegExp.canonicalize upper16 a)
                          (RegExp.canonicalize upper16 ch))
          RegExp.class_members = false.
Proof.
  intro Hge.
  match goal with |- ?b = false => destruct b eqn:E; [|reflexivity] end.
  apply existsb_exists in E as (a & Ha & E). apply N.eqb_eq in E.
  pose proof canonicalize_members as M. rewrite forallb_forall in M.
  specialize (M a Ha). apply N.ltb_lt in M.
  pose proof (canonicalize_above Hge). lia.
Qed.

(** Under [i] and without [u], the negated class [[^a-z0-9]] matches
    exactly the units outside [[a-zA-Z0-9]]. *)
Lemma matches_not_alphanumeric (ch : N) :
  RegExp.matches upper16 ch = negb (alphanumeric ch).
Proof.
  destruct (N.lt_ge_cases ch 128) as [Hlt | Hge].
  - apply Bool.eqb_prop.
    apply (below_128
             (fun c => Bool.eqb (RegExp.matches upper16 c) (negb (alphanumeric c))));
      [vm_compute; reflexivity | assumption].
  - rewrite (not_alphanumeric_above Hge). unfold RegExp.matches.
    now rewrite (no_member_above Hge).
Qed.

Lemma replace_all_underscore (s : jsstring) :
  RegExp.replace_all upper16 s (JsString.lit "_")
  = map (fun c => if alphanumeric c then c else 95%N) s.
Proof.
  unfold RegExp.replace_all.
  induction s as [|c s IH]; [reflexivity|].
  cbn [flat_map map]. rewrite IH, matches_not_alphanumeric.
  now destruct (alphanumeric c).
Qed.

End RegExpFacts.

Lemma sanitized_ascii (s : jsstring) :
  Forall (fun c => (c < 128)%N) (map (fun c => if alphanumeric c then c else 95%N) s).
Proof.
  apply Forall_map, Forall_forall. intros c _.
  destruct (alphanumeric c) eqn:E; [now apply alphanumeric_ascii | lia].
Qed.

Lemma substring_prefix (s : jsstring) (n : nat) :
  JsString.substring s 0 (Z.of_nat n) = firstn n s.
Proof.
  unfold JsString.substring, JsString.length.
  rewrite Z.max_id, (Z.max_l (Z.of_nat n) 0) by lia.
  rewrite (Z.min_l 0) by lia.
  rewrite (Z.min_l 0) by lia.
  rewrite Z.max_r by lia.
  rewrite Z.sub_0_r. cbn [Z.to_nat skipn].
  destruct (Nat.le_gt_cases n (List.length s)) as [H | H].
  - rewrite Z.min_l by lia. now rewrite Nat2Z.id.
  - rewrite Z.min_r by lia. rewrite Nat2Z.id.
    now rewrite !firstn_all2 by lia.
Qed.

(** C6: the file name is the title with every unit outside [[a-zA-Z0-9]]
    replaced by ['_'], lower-cased, cut to at most 16 units, followed by
    [".md"]; the title [Hello, World! 2024] gives [hello__world__20.md].
    The engine's [toLowerCase] is only assumed to lower-case Basic Latin
    strings unit by unit. *)
Theorem generateFilename_spec
        (toLowerCase : jsstring -> jsstring) (upper16 : N -> N)
        (toLowerCase_ascii :
           forall s, Forall (fun c => (c < 128)%N) s ->
                     toLowerCase s = map JsString.lower_unit s)
        (title : jsstring) :
  generateFilename toLowerCase upper16 title = filename_of_title title
  /\ (List.length (generateFilename toLowerCase upper16 title) <= 16 + 3)%nat
  /\ generateFilename toLowerCase upper16 (JsString.lit "Hello, World! 2024")
     = JsString.lit "hello__world__20.md".
Proof.
  assert (E : forall t, generateFilename toLowerCase upper16 t = filename_of_title t).
  { intro t. unfold generateFilename, filename_of_title.
    rewrite replace_all_underscore, toLowerCase_ascii by apply sanitized_ascii.
    now rewrite (substring_prefix _ 16). }
  split; [apply E | split].
  - rewrite E. unfold filename_of_title.
    rewrite length_app. pose proof (firstn_le_length 16
      (map JsString.lower_unit (map (fun c => if alphanumeric c then c else 95%N) title))).
    change (List.length (JsString.lit ".md")) with 3%nat. lia.
  - rewrite E. vm_compute. reflexivity.
Qed.

Lemma generateFilename_spec_witness :
  (forall s, Forall (fun c => (c < 128)%N) s ->
             Sample.toLowerCase s = map JsString.lower_unit s)
  /\ (generateFilename Sample.toLowerCase Sample.upper16 (JsString.lit "Chat #1")
      = filename_of_title (JsString.lit "Chat #1")
      /\ (List.length (generateFilename Sample.toLowerCase Sample.upper16
                                        (JsString.lit "Chat #1")) <= 16 + 3)%nat
      /\ generateFilename Sample.toLowerCase Sample.upper16
                          (JsString.lit "Hello, World! 2024")
         = JsString.lit "hello__world__20.md").
Proof.
  split; [intros; reflexivity | apply generateFilename_spec; intros; reflexivity].
Defined.

(** ** Running composed programs *)

Lemma emit_after {A B : Type} (ev : Event) (o : Outcome A)
      (k : Result A -> HistoryState -> Outcome B) :
  emit ev (after o k) = after (emit ev o) k.
Proof.
  destruct o as [[r s] evs]. unfold after, emit.
  now destruct (k r s) as [[r' s'] evs'].
Qed.

Lemma run_bind {A B : Type} (env : Env) (p : Prog A) (g : A -> Prog B) :
  forall s,
    run env (bind p g) s
    = after (run env p s)
            (fun r s' => match r with
                         | Resolved a => run env (g a) s'
                         | Rejected e => (Rejected e, s', [])
                         end).
Proof.
  induction p as [a | e | f k IH | ev k IH | fn md k IH | k IH | cid k IH];
    intro s; cbn [bind run].
  - unfold after. now destruct (run env (g a) s) as [[r' s'] evs'].
  - reflexivity.
  - apply IH.
  - now rewrite IH, emit_after.
  - now rewrite IH, emit_after.
  - now rewrite IH, emit_after.
  - now rewrite IH, emit_after.
Qed.

Lemma run_try_catch {A : Type} (env : Env) (p : Prog A) (h : Err -> Prog A) :
  forall s,
    run env (try_catch p h) s
    = after (run env p s)
            (fun r s' => match r with
                         | Resolved a => (Resolved a, s', [])
                         | Rejected e => run env (h e) s'
                         end).
Proof.
  induction p as [a | e | f k IH | ev k IH | fn md k IH | k IH | cid k IH];
    intro s; cbn [try_catch run].
  - reflexivity.
  - unfold after. now destruct (run env (h e) s) as [[r' s'] evs'].
  - apply IH.
  - now rewrite IH, emit_after.
  - now rewrite IH, emit_after.
  - now rewrite IH, emit_after.
  - now rewrite IH, emit_after.
Qed.

Lemma run_finally {A : Type} (env : Env) (p : Prog A) (q : Prog unit) :
  forall s,
    run env (finally p q) s
    = after (run env p s) (fun r s' => run env (q ;; settle r) s').
Proof.
  induction p as [a | e | f k IH | ev k IH | fn md k IH | k IH | cid k IH];
    intro s; cbn [finally run].
  - unfold after. cbn [settle]. now destruct (run env (q ;; Ret a) s) as [[r' s'] evs'].
  - unfold after. cbn [settle]. now destruct (run env (q ;; Throw e) s) as [[r' s'] evs'].
  - apply IH.
  - now rewrite IH, emit_after.
  - now rewrite IH, emit_after.
  - now rewrite IH, emit_after.
  - now rewrite IH, emit_after.
Qed.

(** The deletion loop of a batch: it stops at the first deletion the store
    rejects. *)
Lemma run_delete_loop_ok (env : Env) (ids : list jsstring) (s : HistoryState) :
  (forall cid, In cid ids -> deleteConversation_result env cid = Resolved tt) ->
  run env (for_of ids (fun cid => deleteConversation cid)) s
  = (Resolved tt, s, map CallDeleteConversation ids).
Proof.
  induction ids as [|cid ids IH]; intro H; [reflexivity|].
  cbn [for_of]. rewrite run_bind. cbn [deleteConversation run].
  rewrite (H cid) by now left. cbn [settle run emit after].
  rewrite IH by (intros; apply H; now right). reflexivity.
Qed.

Lemma run_delete_loop_fails (env : Env) (done : list jsstring) (cid : jsstring)
      (rest : list jsstring) (e : Err) (s : HistoryState) :
  (forall x, In x done -> deleteConversation_result env x = Resolved tt) ->
  deleteConversation_result env cid = Rejected e ->
  run env (for_of (done ++ cid :: rest) (fun x => deleteConversation x)) s
  = (Rejected e, s, map CallDeleteConversation (done ++ [cid])).
Proof.
  intros Hdone Hcid. induction done as [|x done IH].
  - cbn [app for_of]. rewrite run_bind. cbn [deleteConversation run].
    rewrite Hcid. reflexivity.
  - cbn [app for_of]. rewrite run_bind. cbn [deleteConversation run].
    rewrite (Hdone x) by now left. cbn [settle run emit after].
    rewrite IH by (intros; apply Hdone; now right). reflexivity.
Qed.

Lemma run_dispatch_loop (env : Env) (name : string) (ids : list jsstring)
      (s : HistoryState) :
  run env (for_of ids (fun cid => perform (DispatchEvent name cid))) s
  = (Resolved tt, s, map (DispatchEvent name) ids).
Proof.
  induction ids as [|cid ids IH]; [reflexivity|].
  cbn [for_of]. rewrite run_bind. cbn [perform run emit after].
  now rewrite IH.
Qed.

Lemma broadcasts_app (xs ys : list Event) :
  broadcasts (xs ++ ys) = broadcasts xs ++ broadcasts ys.
Proof. apply flat_map_app. Qed.

Lemma broadcasts_calls (ids : list jsstring) :
  broadcasts (map CallDeleteConversation ids) = [].
Proof. induction ids; [reflexivity | assumption]. Qed.

Lemma broadcasts_dispatch (name : string) (ids : list jsstring) :
  broadcasts (map (DispatchEvent name) ids) = map (fun cid => (name, cid)) ids.
Proof. induction ids as [|x ids IH]; [reflexivity|]. simpl. now rewrite <- IH. Qed.

Lemma deletions_app (xs ys : list Event) :
  deletions (xs ++ ys) = deletions xs ++ deletions ys.
Proof. apply flat_map_app. Qed.

Lemma deletions_calls (ids : list jsstring) :
  deletions (map CallDeleteConversation ids) = ids.
Proof. induction ids as [|x ids IH]; [reflexivity|]. simpl. now rewrite IH. Qed.

Lemma deletions_dispatch (name : string) (ids : list jsstring) :
  deletions (map (DispatchEvent name) ids) = [].
Proof. induction ids; [reflexivity | assumption]. Qed.

(** ** Refreshing the cache *)

(** C7: [refreshConversations] raises the loading flag and then waits for the
    store with the flag raised; when the store answers, in whatever cells
    [s'] the answer finds, the cached list becomes the fetched list (or the
    empty list if the store failed) and the flag is lowered. Run in one go,
    the same holds from start to end. *)
Theorem refreshConversations_loading (env : Env) (s : HistoryState) :
  (exists k,
      advance (saveFile_result env) refreshConversations s
      = (AwaitingGetAll k, with_isLoading (fun _ => true) s, [CallGetAllConversations])
      /\ isLoading (with_isLoading (fun _ => true) s) = true
      /\ (forall loaded s',
             advance (saveFile_result env) (k (Resolved loaded)) s'
             = (Finished (Resolved tt),
                with_isLoading (fun _ => false)
                  (with_conversations (fun _ => loaded) s'),
                []))
      /\ (forall e s',
             advance (saveFile_result env) (k (Rejected e)) s'
             = (Finished (Resolved tt),
                with_isLoading (fun _ => false)
                  (with_conversations (fun _ => []) s'),
                [ConsoleError "Failed to load conversations:"])))
  /\ isLoading (state_of (run env refreshConversations s)) = false
  /\ conversations (state_of (run env refreshConversations s))
     = match getAllConversations_result env with
       | Resolved loaded => loaded
       | Rejected _ => []
       end.
Proof.
  split.
  - eexists. split; [reflexivity|]. repeat split.
  - cbn. destruct (getAllConversations_result env); split; reflexivity.
Qed.

(** ** Downloading *)

Lemma no_timer_in (evs : list Event) :
  armed evs = [] -> forall cb ms, ~ In (SetTimeout cb ms) evs.
Proof.
  intros H cb ms Hin.
  assert (In cb (armed evs)) as Hcb
      by (apply in_flat_map; exists (SetTimeout cb ms); split; [assumption | now left]).
  rewrite H in Hcb. contradiction.
Qed.

(** C8: when rendering the document or saving the file throws, the call
    returns with the conversation's identifier absent from the set of
    recently downloaded conversations and without having armed a timer. *)
Theorem handleDownloadConversation_failure
        (toLowerCase : jsstring -> jsstring) (upper16 : N -> N) (ms : Z)
        (renderMarkdown : ChatConversation -> Result jsstring)
        (env : Env) (s : HistoryState) (c : ChatConversation)
        (failure :
           (exists e, renderMarkdown c = Rejected e)
           \/ (exists markdown e,
                  renderMarkdown c = Resolved markdown
                  /\ saveFile_result env
                       (generateFilename toLowerCase upper16 (title c)) markdown
                     = Rejected e)) :
  let o := run env (handleDownloadConversation toLowerCase upper16 ms renderMarkdown c) s in
  result_of o = Resolved tt
  /\ JsSet.has (id c) (downloadedConversations (state_of o)) = false
  /\ (forall cb delay, ~ In (SetTimeout cb delay) (events_of o)).
Proof.
  unfold handleDownloadConversation.
  destruct failure as [[e Hr] | (markdown & e & Hr & Hs)]; rewrite Hr;
    cbn -[generateFilename JsSet.has JsSet.delete JsSet.add JsSet.copy In];
    try rewrite Hs;
    cbn -[generateFilename JsSet.has JsSet.delete JsSet.add JsSet.copy In];
    (split; [reflexivity | split; [apply JsSet_has_delete | apply no_timer_in; reflexivity]]).
Qed.

Lemma handleDownloadConversation_failure_witness :
  let env := {| getAllConversations_result := Resolved [];
                deleteConversation_result := fun _ => Resolved tt;
                saveFile_result := fun _ _ => Rejected "denied"%string |} in
  let c := Sample.conv "chat" in
  let o := run env (handleDownloadConversation Sample.toLowerCase Sample.upper16
                      Sample.DOWNLOAD_SUCCESS_DISPLAY_MS Sample.renderMarkdown c)
               initialState in
  result_of o = Resolved tt
  /\ JsSet.has (id c) (downloadedConversations (state_of o)) = false
  /\ (forall cb delay, ~ In (SetTimeout cb delay) (events_of o)).
Proof.
  intros env c.
  apply (@handleDownloadConversation_failure Sample.toLowerCase Sample.upper16
           Sample.DOWNLOAD_SUCCESS_DISPLAY_MS Sample.renderMarkdown env initialState c).
  right. eexists. eexists. split; reflexivity.
Defined.

(** When nothing throws, the mark is set and exactly its timer is armed. *)
Example handleDownloadConversation_success :
  let o := run (Sample.env [] [])
               (handleDownloadConversation Sample.toLowerCase Sample.upper16
                  Sample.DOWNLOAD_SUCCESS_DISPLAY_MS Sample.renderMarkdown
                  (Sample.conv "chat"))
               initialState in
  downloadedConversations (state_of o) = [JsString.lit "chat"]
  /\ armed (events_of o) = [ClearDownloadedConversation (JsString.lit "chat")].
Proof. vm_compute. split; reflexivity. Qed.

(** ** Deleting one conversation *)

Lemma pendingDelete_truthy (render : HistoryState) (cid : jsstring) :
  pendingDelete render cid ->
  deleteConfirm render = Some cid /\ JsString.falsy cid = false.
Proof. intros [H1 H2]. rewrite H1 in H2. now split. Qed.

Lemma filter_other_ids (cid : jsstring) (l : list ChatConversation) :
  forall c, In c (filter (fun c => negb (JsString.eqb (id c) cid)) l) -> id c <> cid.
Proof.
  intros c H. apply filter_In in H as [_ H].
  apply negb_true_iff in H. now apply JsString_eqb_neq.
Qed.

(** C4: with a delete confirmation pending on the identifier of a cached
    conversation [C], if the store deletes it then [C] (and anything else
    with its identifier) is gone from the cached list and the run emitted
    exactly one broadcast, with payload [C.id]; and whether the store
    succeeds or fails, the pending identifier is cleared. *)
Theorem confirmDelete_removes_and_broadcasts
        (env : Env) (render s : HistoryState) (C : ChatConversation)
        (cached : In C (conversations s))
        (pending : pendingDelete render (id C)) :
  let o := run env (confirmDelete render) s in
  (deleteConversation_result env (id C) = Resolved tt ->
     ~ In C (conversations (state_of o))
     /\ (forall c, In c (conversations (state_of o)) -> id c <> id C)
     /\ broadcasts (events_of o) = [("conversationDeleted"%string, id C)])
  /\ deleteConfirm (state_of o) = None.
Proof.
  apply pendingDelete_truthy in pending as [Hd Hf].
  unfold confirmDelete. rewrite Hd, Hf.
  cbn -[filter]. destruct (deleteConversation_result env (id C)) as [[]|e] eqn:E;
    cbn -[filter]; (split; [|reflexivity]); intro H; [|discriminate].
  assert (forall c, In c (filter (fun c => negb (JsString.eqb (id c) (id C)))
                                 (conversations s)) -> id c <> id C) as Hall
      by apply filter_other_ids.
  repeat split; [|exact Hall].
  intro Hin. now apply (Hall C Hin).
Qed.

Lemma confirmDelete_removes_and_broadcasts_witness :
  let C := Sample.conv "a" in
  let s := with_deleteConfirm (fun _ => Some (id C))
             (with_conversations (fun _ => [C; Sample.conv "b"]) initialState) in
  let env := Sample.env [] [] in
  In C (conversations s)
  /\ pendingDelete s (id C)
  /\ let o := run env (confirmDelete s) s in
     (deleteConversation_result env (id C) = Resolved tt ->
        ~ In C (conversations (state_of o))
        /\ (forall c, In c (conversations (state_of o)) -> id c <> id C)
        /\ broadcasts (events_of o) = [("conversationDeleted"%string, id C)])
     /\ deleteConfirm (state_of o) = None.
Proof.
  intros C s env.
  assert (In C (conversations s)) as Hin by (left; reflexivity).
  assert (pendingDelete s (id C)) as Hp by (split; reflexivity).
  split; [exact Hin | split; [exact Hp |]].
  exact (@confirmDelete_removes_and_broadcasts env s s C Hin Hp).
Defined.

(** C10: with a delete confirmation pending, if the store fails to delete
    then the cached list is as it was and nothing is broadcast, while the
    viewed and the selected conversation are cleared and the pending
    identifier is reset. *)
Theorem confirmDelete_store_failure
        (env : Env) (render s : HistoryState) (cid : jsstring) (e : Err)
        (pending : pendingDelete render cid)
        (failure : deleteConversation_result env cid = Rejected e) :
  let o := run env (confirmDelete render) s in
  conversations (state_of o) = conversations s
  /\ broadcasts (events_of o) = []
  /\ deletions (events_of o) = [cid]
  /\ viewingConversation (state_of o) = None
  /\ selectedConversationId (state_of o) = None
  /\ deleteConfirm (state_of o) = None.
Proof.
  apply pendingDelete_truthy in pending as [Hd Hf].
  unfold confirmDelete. rewrite Hd, Hf.
  cbn. rewrite failure. cbn. repeat split.
Qed.

Lemma confirmDelete_store_failure_witness :
  let C := Sample.conv "a" in
  let s := with_viewingConversation (fun _ => Some C)
             (with_deleteConfirm (fun _ => Some (id C))
                (with_conversations (fun _ => [C]) initialState)) in
  let env := Sample.env [] [id C] in
  pendingDelete s (id C)
  /\ deleteConversation_result env (id C) = Rejected "delete failed"%string
  /\ let o := run env (confirmDelete s) s in
     conversations (state_of o) = conversations s
     /\ broadcasts (events_of o) = []
     /\ deletions (events_of o) = [id C]
     /\ viewingConversation (state_of o) = None
     /\ selectedConversationId (state_of o) = None
     /\ deleteConfirm (state_of o) = None.
Proof.
  intros C s env.
  assert (pendingDelete s (id C)) as Hp by (split; reflexivity).
  assert (deleteConversation_result env (id C) = Rejected "delete failed"%string)
    as Hf by reflexivity.
  split; [exact Hp | split; [exact Hf |]].
  exact (@confirmDelete_store_failure env s s (id C) _ Hp Hf).
Defined.

(** The empty identifier is no pending confirmation: [confirmDelete] returns
    at its first line. *)
Example confirmDelete_empty_identifier (env : Env) (s : HistoryState) :
  run env (confirmDelete (with_deleteConfirm (fun _ => Some []) s)) s
  = (Resolved tt, s, []).
Proof. reflexivity. Qed.

(** ** Deleting a batch *)

Lemma selection_not_empty (render : HistoryState) :
  selectedIds render <> JsSet.empty ->
  (JsSet.size (selectedIds render) =? 0)%nat = false.
Proof.
  intro H. apply Nat.eqb_neq. unfold JsSet.size.
  destruct (selectedIds render); [contradiction | discriminate].
Qed.

Lemma broadcast_count_once (name : string) (cid : jsstring) (ids : list jsstring) :
  NoDup ids -> In cid ids ->
  broadcast_count cid (map (fun x => (name, x)) ids) = 1%nat.
Proof.
  unfold broadcast_count.
  induction ids as [|x ids IH]; intros Hnd Hin; [contradiction|].
  inversion Hnd as [|? ? Hx Hnd']; subst.
  cbn [map filter snd]. destruct (JsString.eqb x cid) eqn:E.
  - apply JsString_eqb_eq in E. subst x. cbn [List.length]. f_equal.
    clear IH Hin Hnd. induction ids as [|y ids IH]; [reflexivity|].
    cbn [map filter snd]. destruct (JsString.eqb y cid) eqn:E.
    + apply JsString_eqb_eq in E. subst y. exfalso. apply Hx. now left.
    + apply IH; [intro; apply Hx; now right | now inversion Hnd'].
  - destruct Hin as [-> | Hin]; [rewrite JsString_eqb_refl in E; discriminate|].
    now apply IH.
Qed.

(** C9: with nothing selected, [confirmBatchDelete] is the empty program: no
    store call, no broadcast, and every cell (the dialog flag among them) as
    it was. *)
Theorem confirmBatchDelete_nothing_selected
        (env : Env) (render s : HistoryState)
        (nothing : JsSet.size (selectedIds render) = 0%nat) :
  confirmBatchDelete render = Ret tt
  /\ run env (confirmBatchDelete render) s = (Resolved tt, s, []).
Proof.
  unfold confirmBatchDelete. rewrite nothing. split; reflexivity.
Qed.

Lemma confirmBatchDelete_nothing_selected_witness :
  let s := with_batchDeleteConfirm (fun _ => true)
             (with_conversations (fun _ => [Sample.conv "a"]) initialState) in
  JsSet.size (selectedIds s) = 0%nat
  /\ confirmBatchDelete s = Ret tt
  /\ run (Sample.env [] []) (confirmBatchDelete s) s = (Resolved tt, s, []).
Proof.
  intro s. split; [reflexivity|].
  apply (@confirmBatchDelete_nothing_selected (Sample.env [] []) s s). reflexivity.
Defined.

(** The dialog is closed however the deletions go. *)
Lemma confirmBatchDelete_closes_dialog (env : Env) (render s : HistoryState) :
  selectedIds render <> JsSet.empty ->
  batchDeleteConfirm (state_of (run env (confirmBatchDelete render) s)) = false.
Proof.
  intro Hne. unfold confirmBatchDelete, try_catch_finally.
  rewrite (@selection_not_empty render Hne), run_finally.
  destruct (run env (try_catch _ _) s) as [[r s1] evs].
  destruct r; reflexivity.
Qed.

Lemma confirmBatchDelete_success (env : Env) (render s : HistoryState) :
  selectedIds render <> JsSet.empty ->
  (forall cid, In cid (selectedIds render) ->
               deleteConversation_result env cid = Resolved tt) ->
  run env (confirmBatchDelete render) s
  = (Resolved tt,
     with_batchDeleteConfirm (fun _ => false)
       (with_isSelectionMode (fun _ => false)
          (with_selectedIds (fun _ => JsSet.empty)
             (with_conversations
                (fun prev =>
                   filter (fun c => negb (JsSet.has (id c) (selectedIds render))) prev)
                s))),
     map CallDeleteConversation (selectedIds render)
       ++ map (DispatchEvent "conversationDeleted") (selectedIds render)).
Proof.
  intros Hne Hok. unfold confirmBatchDelete, try_catch_finally.
  rewrite (@selection_not_empty render Hne), run_finally, run_try_catch, run_bind.
  rewrite (@run_delete_loop_ok env _ _ Hok). cbn [after].
  rewrite run_bind. cbn [setState run after]. rewrite run_bind.
  rewrite run_dispatch_loop. cbn [after bind setState run settle app].
  now rewrite !app_nil_r.
Qed.

Lemma confirmBatchDelete_failure (env : Env) (render s : HistoryState)
      (done : list jsstring) (cid : jsstring) (rest : list jsstring) (e : Err) :
  selectedIds render = done ++ cid :: rest ->
  (forall x, In x done -> deleteConversation_result env x = Resolved tt) ->
  deleteConversation_result env cid = Rejected e ->
  run env (confirmBatchDelete render) s
  = (Resolved tt,
     with_batchDeleteConfirm (fun _ => false) s,
     map CallDeleteConversation (done ++ [cid])
       ++ [ConsoleError "Failed to delete conversations:"]).
Proof.
  intros Hsel Hdone Hcid. unfold confirmBatchDelete, try_catch_finally.
  rewrite selection_not_empty by (rewrite Hsel; now destruct done).
  rewrite run_finally, run_try_catch, run_bind, Hsel.
  rewrite (@run_delete_loop_fails env done cid rest e _ Hdone Hcid).
  cbn [after perform bind setState run settle emit app].
  now rewrite !app_nil_r.
Qed.

(** C1, as the code has it: when the store rejects a deletion of the batch,
    the deletions after it are not attempted, the cached list, the selection
    set and selection mode stay as they were, nothing is broadcast, and the
    confirmation dialog is closed. *)
Theorem confirmBatchDelete_partial_failure
        (env : Env) (render s : HistoryState)
        (done : list jsstring) (cid : jsstring) (rest : list jsstring) (e : Err)
        (selection : selectedIds render = done ++ cid :: rest)
        (succeeded : forall x, In x done -> deleteConversation_result env x = Resolved tt)
        (failed : deleteConversation_result env cid = Rejected e) :
  let o := run env (confirmBatchDelete render) s in
  deletions (events_of o) = done ++ [cid]
  /\ conversations (state_of o) = conversations s
  /\ broadcasts (events_of o) = []
  /\ selectedIds (state_of o) = selectedIds s
  /\ isSelectionMode (state_of o) = isSelectionMode s
  /\ batchDeleteConfirm (state_of o) = false.
Proof.
  cbv zeta. rewrite (@confirmBatchDelete_failure env render s done cid rest e selection succeeded failed).
  unfold events_of, state_of. cbn [fst snd].
  rewrite deletions_app, deletions_calls, broadcasts_app, broadcasts_calls.
  cbn [deletions broadcasts flat_map app]. rewrite app_nil_r.
  repeat split.
Qed.

Lemma confirmBatchDelete_partial_failure_witness :
  let a := JsString.lit "a" in
  let b := JsString.lit "b" in
  let c := JsString.lit "c" in
  let s := Sample.state [Sample.conv "a"; Sample.conv "b"; Sample.conv "c"] [a; b; c] in
  let env := Sample.env [] [b] in
  selectedIds s = [a] ++ b :: [c]
  /\ (forall x, In x [a] -> deleteConversation_result env x = Resolved tt)
  /\ deleteConversation_result env b = Rejected "delete failed"%string
  /\ let o := run env (confirmBatchDelete s) s in
     deletions (events_of o) = [a] ++ [b]
     /\ conversations (state_of o) = conversations s
     /\ broadcasts (events_of o) = []
     /\ selectedIds (state_of o) = selectedIds s
     /\ isSelectionMode (state_of o) = isSelectionMode s
     /\ batchDeleteConfirm (state_of o) = false.
Proof.
  intros a b c s env.
  assert (selectedIds s = [a] ++ b :: [c]) as H1 by reflexivity.
  assert (forall x, In x [a] -> deleteConversation_result env x = Resolved tt) as H2
      by (intros x [<- | []]; reflexivity).
  assert (deleteConversation_result env b = Rejected "delete failed"%string) as H3
      by reflexivity.
  split; [exact H1 | split; [exact H2 | split; [exact H3 |]]].
  exact (@confirmBatchDelete_partial_failure env s s [a] b [c] _ H1 H2 H3).
Defined.

(** The claim C1 as worded fails: the first deletion succeeds, the second
    fails, and both conversations stay in the cached list with no broadcast. *)
Lemma confirmBatchDelete_partial_failure_not_evicted :
  let a := JsString.lit "a" in
  let b := JsString.lit "b" in
  let s := Sample.state [Sample.conv "a"; Sample.conv "b"] [a; b] in
  let env := Sample.env [] [b] in
  deleteConversation_result env a = Resolved tt
  /\ deleteConversation_result env b = Rejected "delete failed"%string
  /\ conversations (state_of (run env (confirmBatchDelete s) s))
     = [Sample.conv "a"; Sample.conv "b"]
  /\ broadcasts (events_of (run env (confirmBatchDelete s) s)) = []
  /\ ~ all_selected_evicted_and_broadcast s (run env (confirmBatchDelete s) s).
Proof.
  intros a b s env. repeat split.
  intro H. destruct (H a) as [_ Hb]; [left; reflexivity|].
  vm_compute in Hb. exact Hb.
Qed.

(** C2, as the code has it: on a non-empty selection, if every deletion
    succeeds then each selected identifier was deleted in the store in
    iteration order, all of them left the cached list in one update, each was
    broadcast exactly once, the selection set is empty and selection mode is
    off; and the confirmation dialog is closed whether or not a deletion
    failed. *)
Theorem confirmBatchDelete_completes
        (env : Env) (render s : HistoryState)
        (nonempty : selectedIds render <> JsSet.empty)
        (distinct : NoDup (selectedIds render)) :
  let o := run env (confirmBatchDelete render) s in
  ((forall cid, In cid (selectedIds render) ->
                deleteConversation_result env cid = Resolved tt) ->
     batch_delete_completes render s o
     /\ deletions (events_of o) = selectedIds render
     /\ (forall cid, In cid (selectedIds render) ->
                     broadcast_count cid (broadcasts (events_of o)) = 1%nat))
  /\ batchDeleteConfirm (state_of o) = false.
Proof.
  cbv zeta. split; [|now apply confirmBatchDelete_closes_dialog].
  intro Hok. rewrite (@confirmBatchDelete_success env render s nonempty Hok).
  unfold batch_delete_completes, events_of, state_of. cbn [fst snd].
  rewrite deletions_app, deletions_calls, deletions_dispatch, app_nil_r.
  rewrite broadcasts_app, broadcasts_calls, broadcasts_dispatch. cbn [app].
  split; [| split; [reflexivity|]].
  - split; [intros cid Hin; exact Hin | repeat split].
  - intros cid Hin. now apply broadcast_count_once.
Qed.

Lemma confirmBatchDelete_completes_witness :
  let a := JsString.lit "a" in
  let b := JsString.lit "b" in
  let s := Sample.state [Sample.conv "a"; Sample.conv "b"; Sample.conv "c"] [a; b] in
  let env := Sample.env [] [] in
  selectedIds s <> JsSet.empty
  /\ NoDup (selectedIds s)
  /\ let o := run env (confirmBatchDelete s) s in
     ((forall cid, In cid (selectedIds s) ->
                   deleteConversation_result env cid = Resolved tt) ->
        batch_delete_completes s s o
        /\ deletions (events_of o) = selectedIds s
        /\ (forall cid, In cid (selectedIds s) ->
                        broadcast_count cid (broadcasts (events_of o)) = 1%nat))
     /\ batchDeleteConfirm (state_of o) = false.
Proof.
  intros a b s env.
  assert (selectedIds s <> JsSet.empty) as H1 by discriminate.
  assert (NoDup (selectedIds s)) as H2.
  { repeat constructor; simpl; intuition discriminate. }
  split; [exact H1 | split; [exact H2 |]].
  exact (@confirmBatchDelete_completes env s s H1 H2).
Defined.

(** The scenario of the specification: three conversations, two selected,
    batch delete confirmed. *)
Example confirmBatchDelete_scenario :
  let a := JsString.lit "a" in
  let b := JsString.lit "b" in
  let s := Sample.state [Sample.conv "a"; Sample.conv "b"; Sample.conv "c"] [a; b] in
  let o := run (Sample.env [] []) (confirmBatchDelete s) s in
  conversations (state_of o) = [Sample.conv "c"]
  /\ isSelectionMode (state_of o) = false
  /\ selectedIds (state_of o) = []
  /\ broadcasts (events_of o)
     = [("conversationDeleted"%string, a); ("conversationDeleted"%string, b)].
Proof. vm_compute. repeat split. Qed.

(** The claim C2 as worded fails: when the first deletion fails, the second
    selected identifier is never sent to the store, and nothing of what
    follows the loop happens. *)
Lemma confirmBatchDelete_failure_not_completed :
  let a := JsString.lit "a" in
  let b := JsString.lit "b" in
  let s := Sample.state [Sample.conv "a"; Sample.conv "b"; Sample.conv "c"] [a; b] in
  let env := Sample.env [] [a] in
  selectedIds s <> JsSet.empty
  /\ deletions (events_of (run env (confirmBatchDelete s) s)) = [a]
  /\ selectedIds (state_of (run env (confirmBatchDelete s) s)) = [a; b]
  /\ isSelectionMode (state_of (run env (confirmBatchDelete s) s)) = true
  /\ ~ batch_delete_completes s s (run env (confirmBatchDelete s) s).
Proof.
  intros a b s env. split; [discriminate|]. repeat split.
  intros (_ & _ & _ & H & _). vm_compute in H. discriminate.
Qed.

(** ** The selection set and selection mode *)

Section Keeping.

Variable I : HistoryState -> Prop.

Lemma wp_mono {A : Type} (Q Q' : Result A -> HistoryState -> Prop) (p : Prog A) :
  (forall r s, Q r s -> Q' r s) ->
  forall s, wp I Q p s -> wp I Q' p s.
Proof.
  intro HQ.
  induction p as [a | e | f k IH | ev k IH | fn md k IH | k IH | cid k IH];
    intros s H; cbn [wp] in *; auto.
  - destruct H as [Hs H]. split; eauto.
  - destruct H as [Hs H]. split; eauto.
Qed.

Lemma wp_bind {A B : Type} (Q : Result B -> HistoryState -> Prop)
      (p : Prog A) (g : A -> Prog B) :
  forall s,
    wp I (fun r s' => match r with
                      | Resolved a => wp I Q (g a) s'
                      | Rejected e => Q (Rejected e) s'
                      end) p s ->
    wp I Q (bind p g) s.
Proof.
  induction p as [a | e | f k IH | ev k IH | fn md k IH | k IH | cid k IH];
    intros s H; cbn [bind wp] in *; auto.
  - destruct H as [Hs H]. split; auto.
  - destruct H as [Hs H]. split; auto.
Qed.

Lemma wp_try_catch {A : Type} (Q : Result A -> HistoryState -> Prop)
      (p : Prog A) (h : Err -> Prog A) :
  forall s,
    wp I (fun r s' => match r with
                      | Resolved a => Q (Resolved a) s'
                      | Rejected e => wp I Q (h e) s'
                      end) p s ->
    wp I Q (try_catch p h) s.
Proof.
  induction p as [a | e | f k IH | ev k IH | fn md k IH | k IH | cid k IH];
    intros s H; cbn [try_catch wp] in *; auto.
  - destruct H as [Hs H]. split; auto.
  - destruct H as [Hs H]. split; auto.
Qed.

Lemma wp_finally {A : Type} (Q : Result A -> HistoryState -> Prop)
      (p : Prog A) (q : Prog unit) :
  forall s,
    wp I (fun r s' => wp I Q (q ;; settle r) s') p s ->
    wp I Q (finally p q) s.
Proof.
  induction p as [a | e | f k IH | ev k IH | fn md k IH | k IH | cid k IH];
    intros s H; cbn [finally wp settle] in *; auto.
  - destruct H as [Hs H]. split; auto.
  - destruct H as [Hs H]. split; auto.
Qed.

Lemma wp_delete_loop (Q : Result unit -> HistoryState -> Prop) (ids : list jsstring) :
  (forall s, I s -> Q (Resolved tt) s) ->
  (forall e s, I s -> Q (Rejected e) s) ->
  forall s, I s -> wp I Q (for_of ids (fun cid => deleteConversation cid)) s.
Proof.
  intros Hok Hko. induction ids as [|cid ids IH]; intros s Hs; cbn [for_of]; [now apply Hok|].
  cbn [deleteConversation bind wp]. split; [assumption|].
  intros [[]|e] s' Hs'; cbn [settle bind wp]; auto.
Qed.

Lemma wp_dispatch_loop (Q : Result unit -> HistoryState -> Prop) (name : string)
      (ids : list jsstring) (s : HistoryState) :
  Q (Resolved tt) s ->
  wp I Q (for_of ids (fun cid => perform (DispatchEvent name cid))) s.
Proof.
  intro H. induction ids as [|cid ids IH]; [exact H|].
  cbn [for_of perform bind wp]. exact IH.
Qed.

(** What [wp] promises is what a synchronous stretch delivers. *)
Lemma wp_advance {A : Type} (Q : Result A -> HistoryState -> Prop) save (p : Prog A) :
  forall s,
    wp I Q p s ->
    match advance save p s with
    | (Finished r, s', _) => Q r s'
    | (AwaitingGetAll k, s', _) => I s' /\ forall r s'', I s'' -> wp I Q (k r) s''
    | (AwaitingDelete _ k, s', _) => I s' /\ forall r s'', I s'' -> wp I Q (k r) s''
    end.
Proof.
  induction p as [a | e | f k IH | ev k IH | fn md k IH | k IH | cid k IH];
    intros s H; cbn [advance wp] in H |- *.
  - exact H.
  - exact H.
  - exact (IH (f s) H).
  - specialize (IH s H). unfold emit'.
    destruct (advance save k s) as [[[] ?] ?]; exact IH.
  - specialize (IH (save fn md) s (H _)). unfold emit'.
    destruct (advance save (k (save fn md)) s) as [[[] ?] ?]; exact IH.
  - exact H.
  - exact H.
Qed.

Lemma land_keeps save (p : Prog unit) (s : HistoryState)
      (waiting : list Pending) (ts : list TimerCallback) :
  keeps I p s -> Forall (pending_keeps I) waiting ->
  config_keeps I (land save p s waiting ts).
Proof.
  intros Hp Hw. unfold land. pose proof (wp_advance _ save p s Hp) as H.
  destruct (advance save p s) as [[[r | k | cid k] s'] evs]; unfold config_keeps;
    cbn [cells inflight park].
  - split; assumption.
  - destruct H as [Hs Hk]. split; [assumption|].
    apply Forall_app. split; [assumption|]. constructor; [exact Hk | constructor].
  - destruct H as [Hs Hk]. split; [assumption|].
    apply Forall_app. split; [assumption|]. constructor; [exact Hk | constructor].
Qed.

Lemma Forall_without {A : Type} (P : A -> Prop) (pre : list A) (x : A) (post : list A) :
  Forall P (pre ++ x :: post) -> P x /\ Forall P (pre ++ post).
Proof.
  intro H. apply Forall_app in H as [Hpre Hpost].
  inversion Hpost; subst. split; [assumption|]. apply Forall_app. now split.
Qed.

End Keeping.

Lemma JsSet_add_NoDup (x : jsstring) (s : JsSet.t) : NoDup s -> NoDup (JsSet.add x s).
Proof.
  intro H. unfold JsSet.add. destruct (JsSet.has x s) eqn:E; [assumption|].
  apply NoDup_app; [assumption | repeat constructor; intros [] |].
  intros a Ha [<- | []]. apply JsSet_has_In in Ha. congruence.
Qed.

Lemma JsSet_delete_NoDup (x : jsstring) (s : JsSet.t) : NoDup s -> NoDup (JsSet.delete x s).
Proof. apply NoDup_filter. Qed.

Lemma JsSet_of_list_NoDup (l : list jsstring) : NoDup (JsSet.of_list l).
Proof.
  unfold JsSet.of_list.
  assert (forall acc, NoDup acc -> NoDup (fold_left (fun acc x => JsSet.add x acc) l acc))
    as H.
  { induction l as [|x l IH]; intros acc Hacc; [assumption|].
    apply IH. now apply JsSet_add_NoDup. }
  apply H. constructor.
Qed.

Section SelectionInvariant.

Variable toLowerCase : jsstring -> jsstring.
Variable upper16 : N -> N.
Variable DOWNLOAD_SUCCESS_DISPLAY_MS : Z.
Variable renderMarkdown : ChatConversation -> Result jsstring.

Ltac unfold_inv := unfold keeps, selection_well_formed, selection_within_mode in *.

Lemma selection_cleared (s : HistoryState) :
  selectedIds s = JsSet.empty -> selection_well_formed s.
Proof.
  intro E. unfold_inv. rewrite E. split; [congruence | constructor].
Qed.

Lemma refreshConversations_keeps (s : HistoryState) :
  selection_well_formed s -> keeps selection_well_formed refreshConversations s.
Proof.
  intro H. unfold keeps. cbn. split; [exact H|].
  intros [loaded | e] s' Hs'; cbn; exact Hs'.
Qed.

Lemma handleDownloadConversation_keeps (c : ChatConversation) (s : HistoryState) :
  selection_well_formed s ->
  keeps selection_well_formed
        (handleDownloadConversation toLowerCase upper16 DOWNLOAD_SUCCESS_DISPLAY_MS
                                    renderMarkdown c) s.
Proof.
  intro H. unfold keeps, handleDownloadConversation.
  destruct (renderMarkdown c) as [markdown | e];
    cbn -[generateFilename JsSet.add JsSet.delete JsSet.copy]; [|exact H].
  intros [[] | e]; cbn -[generateFilename JsSet.add JsSet.delete JsSet.copy]; exact H.
Qed.

Lemma handleDownload_keeps (c : option ChatConversation) (s : HistoryState) :
  selection_well_formed s ->
  keeps selection_well_formed
        (handleDownload toLowerCase upper16 DOWNLOAD_SUCCESS_DISPLAY_MS
                        renderMarkdown c) s.
Proof.
  intro H. destruct c as [c|]; [|exact H].
  unfold keeps, handleDownload. apply wp_bind.
  eapply wp_mono; [|apply (handleDownloadConversation_keeps c H)].
  intros [[]|e] s' Hs'; exact Hs'.
Qed.

Lemma confirmDelete_keeps (render s : HistoryState) :
  selection_well_formed s -> keeps selection_well_formed (confirmDelete render) s.
Proof.
  intro H. unfold confirmDelete.
  destruct (deleteConfirm render) as [target|]; [|exact H].
  destruct (JsString.falsy target); [exact H|].
  unfold keeps. cbn. split; [exact H|].
  intros [[] | e] s' Hs'; cbn; exact Hs'.
Qed.

Lemma confirmBatchDelete_keeps (render s : HistoryState) :
  selection_well_formed s -> keeps selection_well_formed (confirmBatchDelete render) s.
Proof.
  intro H. unfold confirmBatchDelete.
  destruct (JsSet.size (selectedIds render) =? 0)%nat; [exact H|].
  unfold keeps, try_catch_finally.
  apply wp_finally, wp_try_catch, wp_bind, wp_delete_loop; [| |exact H].
  - intros s' Hs'. cbn [setState bind wp]. apply wp_bind, wp_dispatch_loop.
    cbn. now apply selection_cleared.
  - intros e s' Hs'. cbn. exact Hs'.
Qed.

Lemma timerCallback_keeps (cb : TimerCallback) (s : HistoryState) :
  selection_well_formed s -> keeps selection_well_formed (timerCallback cb) s.
Proof. intro H. destruct cb; exact H. Qed.

Lemma body_keeps (a : Action) (s : HistoryState) :
  selection_well_formed s -> asDashboard s a = true ->
  keeps selection_well_formed
        (body toLowerCase upper16 DOWNLOAD_SUCCESS_DISPLAY_MS renderMarkdown a s) s.
Proof.
  intros H Hallowed. destruct a; cbn [body].
  - now apply refreshConversations_keeps.
  - exact H.
  - now apply handleDownloadConversation_keeps.
  - exact H.
  - now apply confirmDelete_keeps.
  - exact H.
  - exact H.
  - now apply handleDownload_keeps.
  - exact H.
  - now apply selection_cleared.
  - destruct H as [_ Hnd]. split; [intros _; exact Hallowed|].
    cbn -[JsSet.has JsSet.add JsSet.delete JsSet.copy].
    destruct (JsSet.has conversationId (JsSet.copy (selectedIds s)));
      [apply JsSet_delete_NoDup | apply JsSet_add_NoDup]; apply JsSet_of_list_NoDup.
  - split; [intros _; exact Hallowed | apply JsSet_of_list_NoDup].
  - now apply selection_cleared.
  - unfold handleBatchDeleteConfirm.
    destruct (0 <? JsSet.size (selectedIds s))%nat; exact H.
  - now apply confirmBatchDelete_keeps.
  - exact H.
Qed.

Lemma step_keeps (cfg cfg' : Config) :
  step toLowerCase upper16 DOWNLOAD_SUCCESS_DISPLAY_MS renderMarkdown asDashboard
       cfg cfg' ->
  config_keeps selection_well_formed cfg -> config_keeps selection_well_formed cfg'.
Proof.
  intros Hstep [Hs Hw].
  destruct Hstep as [cfg a save Ha | cfg pre k post r save E
                     | cfg pre cid k post r save E | cfg pre cb post save E].
  - apply land_keeps; [now apply body_keeps | assumption].
  - rewrite E in Hw. apply Forall_without in Hw as [Hk Hw].
    apply land_keeps; [now apply Hk | assumption].
  - rewrite E in Hw. apply Forall_without in Hw as [Hk Hw].
    apply land_keeps; [now apply Hk | assumption].
  - apply land_keeps; [now apply timerCallback_keeps | assumption].
Qed.

Lemma reachable_keeps (cfg : Config) :
  reachable toLowerCase upper16 DOWNLOAD_SUCCESS_DISPLAY_MS renderMarkdown asDashboard
            cfg ->
  config_keeps selection_well_formed cfg.
Proof.
  induction 1 as [|cfg cfg' _ IH Hstep].
  - split; [now apply selection_cleared | constructor].
  - now apply (step_keeps Hstep).
Qed.

End SelectionInvariant.

(** In use as on the conversation list page, the selection never holds an
    identifier twice. *)
Lemma reachable_selection_distinct
      (toLowerCase : jsstring -> jsstring) (upper16 : N -> N) (ms : Z)
      (renderMarkdown : ChatConversation -> Result jsstring) (cfg : Config) :
  reachable toLowerCase upper16 ms renderMarkdown asDashboard cfg ->
  NoDup (selectedIds (cells cfg)).
Proof. intro R. exact (proj2 (proj1 (reachable_keeps R))). Qed.

(** C3, as the code has it: [toggleSelectItem] and [selectAll] do not look at
    selection mode, so the invariant is the component's to keep. In every
    state reached while item selection and "select all" are invoked only in
    selection mode (as the conversation list page does), and however actions,
    store replies and timers interleave, the selection set is non-empty only
    while selection mode is on; from such a state [toggleSelectionMode]
    leaves the selection set empty, and so does a batch delete in which every
    store deletion succeeds. *)
Theorem selection_only_in_selection_mode
        (toLowerCase : jsstring -> jsstring) (upper16 : N -> N) (ms : Z)
        (renderMarkdown : ChatConversation -> Result jsstring) (cfg : Config)
        (reached : reachable toLowerCase upper16 ms renderMarkdown asDashboard cfg) :
  selection_within_mode (cells cfg)
  /\ (forall env,
         selectedIds (state_of (run env toggleSelectionMode (cells cfg))) = JsSet.empty)
  /\ (forall env,
         (forall cid, In cid (selectedIds (cells cfg)) ->
                      deleteConversation_result env cid = Resolved tt) ->
         selectedIds (state_of (run env (confirmBatchDelete (cells cfg)) (cells cfg)))
         = JsSet.empty).
Proof.
  split; [exact (proj1 (proj1 (reachable_keeps reached))) | split].
  - reflexivity.
  - intros env Hok. destruct (selectedIds (cells cfg)) as [|x ids] eqn:E.
    + unfold confirmBatchDelete. rewrite E. exact E.
    + rewrite confirmBatchDelete_success; [reflexivity | now rewrite E | ].
      intros cid Hin. apply Hok. now rewrite <- E.
Qed.

Lemma selection_only_in_selection_mode_witness :
  let a := JsString.lit "a" in
  let cfg := {| cells := with_selectedIds (fun _ => [a])
                           (with_isSelectionMode (fun _ => true) initialState);
                inflight := []; timers := [] |} in
  reachable Sample.toLowerCase Sample.upper16 Sample.DOWNLOAD_SUCCESS_DISPLAY_MS
            Sample.renderMarkdown asDashboard cfg
  /\ (selection_within_mode (cells cfg)
      /\ (forall env,
             selectedIds (state_of (run env toggleSelectionMode (cells cfg)))
             = JsSet.empty)
      /\ (forall env,
             (forall cid, In cid (selectedIds (cells cfg)) ->
                          deleteConversation_result env cid = Resolved tt) ->
             selectedIds (state_of (run env (confirmBatchDelete (cells cfg)) (cells cfg)))
             = JsSet.empty)).
Proof.
  intros a cfg.
  assert (reachable Sample.toLowerCase Sample.upper16 Sample.DOWNLOAD_SUCCESS_DISPLAY_MS
                    Sample.renderMarkdown asDashboard cfg) as R.
  { apply reachable_step
      with (cfg := {| cells := with_isSelectionMode (fun _ => true) initialState;
                      inflight := []; timers := [] |}).
    - apply reachable_step with (cfg := initialConfig); [apply reachable_init|].
      exact (@step_action Sample.toLowerCase Sample.upper16
               Sample.DOWNLOAD_SUCCESS_DISPLAY_MS Sample.renderMarkdown asDashboard
               initialConfig ToggleSelectionMode (fun _ _ => Resolved tt) eq_refl).
    - exact (@step_action Sample.toLowerCase Sample.upper16
               Sample.DOWNLOAD_SUCCESS_DISPLAY_MS Sample.renderMarkdown asDashboard
               {| cells := with_isSelectionMode (fun _ => true) initialState;
                  inflight := []; timers := [] |}
               (ToggleSelectItem a) (fun _ _ => Resolved tt) eq_refl). }
  split; [exact R|].
  exact (@selection_only_in_selection_mode Sample.toLowerCase Sample.upper16
           Sample.DOWNLOAD_SUCCESS_DISPLAY_MS Sample.renderMarkdown cfg R).
Defined.

(** The claim C3 as worded fails: the hook lets [toggleSelectItem] run in the
    initial state, which selects an item while selection mode is off. *)
Lemma selection_outside_selection_mode :
  let a := JsString.lit "a" in
  let cfg := {| cells := with_selectedIds (fun _ => [a]) initialState;
                inflight := []; timers := [] |} in
  reachable Sample.toLowerCase Sample.upper16 Sample.DOWNLOAD_SUCCESS_DISPLAY_MS
            Sample.renderMarkdown unrestricted cfg
  /\ selectedIds (cells cfg) = [a]
  /\ isSelectionMode (cells cfg) = false
  /\ ~ selection_within_mode (cells cfg).
Proof.
  intros a cfg. split; [|split; [reflexivity | split; [reflexivity|]]].
  - apply reachable_step with (cfg := initialConfig); [apply reachable_init|].
    exact (@step_action Sample.toLowerCase Sample.upper16
             Sample.DOWNLOAD_SUCCESS_DISPLAY_MS Sample.renderMarkdown unrestricted
             initialConfig (ToggleSelectItem a) (fun _ _ => Resolved tt) eq_refl).
  - intro H. assert (isSelectionMode (cells cfg) = true) as E by (apply H; discriminate).
    discriminate E.
Qed.

(* ================================================================== *)
(** * Further properties of the hook *)
(* ================================================================== *)

(** ** Sets *)

Lemma JsString_eqb_sym (a b : jsstring) : JsString.eqb a b = JsString.eqb b a.
Proof.
  destruct (JsString.eqb a b) eqn:E, (JsString.eqb b a) eqn:E'; try reflexivity.
  - apply JsString_eqb_eq in E. subst. now rewrite JsString_eqb_refl in E'.
  - apply JsString_eqb_eq in E'. subst. now rewrite JsString_eqb_refl in E.
Qed.

Lemma JsSet_has_ext (y : jsstring) (a b : JsSet.t) :
  (In y a <-> In y b) -> JsSet.has y a = JsSet.has y b.
Proof.
  intro H. destruct (JsSet.has y a) eqn:Ea, (JsSet.has y b) eqn:Eb; try reflexivity.
  - apply JsSet_has_In, H, JsSet_has_In in Ea. congruence.
  - apply JsSet_has_In, H, JsSet_has_In in Eb. congruence.
Qed.

Lemma JsSet_add_In (x y : jsstring) (s : JsSet.t) :
  In y (JsSet.add x s) <-> y = x \/ In y s.
Proof.
  unfold JsSet.add. destruct (JsSet.has x s) eqn:E.
  - apply JsSet_has_In in E. split; [now right | intros [-> | H]; assumption].
  - rewrite in_app_iff. simpl. intuition congruence.
Qed.

Lemma JsSet_delete_In (x y : jsstring) (s : JsSet.t) :
  In y (JsSet.delete x s) <-> y <> x /\ In y s.
Proof.
  unfold JsSet.delete. rewrite filter_In, negb_true_iff, JsString_eqb_neq.
  intuition congruence.
Qed.

Lemma JsSet_of_list_In (y : jsstring) (l : list jsstring) :
  In y (JsSet.of_list l) <-> In y l.
Proof.
  unfold JsSet.of_list.
  assert (forall acc, In y (fold_left (fun acc x => JsSet.add x acc) l acc)
                      <-> In y acc \/ In y l) as H.
  { induction l as [|x l IH]; intro acc; cbn [fold_left].
    - simpl. intuition.
    - rewrite IH, JsSet_add_In. simpl. intuition congruence. }
  rewrite H. simpl. intuition.
Qed.

(** Copying a set gives the same set. *)
Lemma JsSet_of_list_id (s : JsSet.t) : NoDup s -> JsSet.of_list s = s.
Proof.
  unfold JsSet.of_list.
  assert (forall acc, NoDup (acc ++ s) ->
                      fold_left (fun acc x => JsSet.add x acc) s acc = acc ++ s) as H.
  { induction s as [|x s IH]; intros acc Hnd; cbn [fold_left].
    - now rewrite app_nil_r.
    - unfold JsSet.add at 2. destruct (JsSet.has x acc) eqn:E.
      + apply JsSet_has_In in E. apply NoDup_remove_2 in Hnd.
        exfalso. apply Hnd. apply in_or_app. now left.
      + rewrite IH; rewrite <- app_assoc; [reflexivity | exact Hnd]. }
  intro Hnd. now apply (H []).
Qed.

Lemma JsSet_delete_absent (x : jsstring) (s : JsSet.t) :
  ~ In x s -> JsSet.delete x s = s.
Proof.
  intro H. unfold JsSet.delete. induction s as [|y s IH]; [reflexivity|].
  cbn [filter]. destruct (JsString.eqb x y) eqn:E.
  - apply JsString_eqb_eq in E. subst. exfalso. apply H. now left.
  - cbn [negb]. rewrite IH; [reflexivity|]. intro Hin. apply H. now right.
Qed.

Lemma JsSet_delete_size (x : jsstring) (s : JsSet.t) :
  NoDup s -> In x s -> S (JsSet.size (JsSet.delete x s)) = JsSet.size s.
Proof.
  unfold JsSet.size. induction s as [|y s IH]; intros Hnd Hin; [contradiction|].
  inversion Hnd as [|? ? Hy Hnd']; subst.
  change (JsSet.delete x (y :: s))
    with (if negb (JsString.eqb x y) then y :: JsSet.delete x s else JsSet.delete x s).
  destruct (JsString.eqb x y) eqn:E; cbn [negb].
  - apply JsString_eqb_eq in E. subst y. now rewrite JsSet_delete_absent.
  - destruct Hin as [-> | Hin]; [rewrite JsString_eqb_refl in E; discriminate|].
    cbn [List.length]. f_equal. now apply IH.
Qed.

(** ** Selecting *)

Lemma toggleSelectItem_effect (env : Env) (x : jsstring) (s : HistoryState) :
  NoDup (selectedIds s) ->
  let s' := state_of (run env (toggleSelectItem x) s) in
  s' = with_selectedIds (fun _ => selectedIds s') s
  /\ (forall y, JsSet.has y (selectedIds s')
                = if JsString.eqb y x then negb (JsSet.has x (selectedIds s))
                  else JsSet.has y (selectedIds s))
  /\ JsSet.size (selectedIds s')
     = (if JsSet.has x (selectedIds s)
        then pred (JsSet.size (selectedIds s))
        else S (JsSet.size (selectedIds s)))
  /\ NoDup (selectedIds s').
Proof.
  intro distinct. cbv zeta. unfold toggleSelectItem, state_of.
  cbn [setState run fst snd]. unfold with_selectedIds. cbn [selectedIds].
  unfold JsSet.copy. rewrite (JsSet_of_list_id distinct).
  split; [reflexivity|].
  destruct (JsSet.has x (selectedIds s)) eqn:E.
  - repeat split.
    + intro y. destruct (JsString.eqb y x) eqn:Eyx.
      * apply JsString_eqb_eq in Eyx. subst y. apply JsSet_has_delete.
      * apply JsSet_has_ext. rewrite JsSet_delete_In.
        apply JsString_eqb_neq in Eyx. intuition.
    + apply JsSet_has_In in E. now rewrite <- (@JsSet_delete_size x (selectedIds s) distinct E).
    + now apply JsSet_delete_NoDup.
  - repeat split.
    + intro y. destruct (JsString.eqb y x) eqn:Eyx.
      * apply JsString_eqb_eq in Eyx. subst y. apply JsSet_has_In, JsSet_add_In. now left.
      * apply JsSet_has_ext. rewrite JsSet_add_In.
        apply JsString_eqb_neq in Eyx. intuition.
    + unfold JsSet.add, JsSet.size. rewrite E, length_app. simpl. lia.
    + now apply JsSet_add_NoDup.
Qed.

(** X1: [toggleSelectItem] calls nothing and changes only the selection set;
    it flips the membership of its identifier and of no other, and the set
    grows or shrinks by one accordingly. *)
Theorem toggleSelectItem_flips (env : Env) (x : jsstring) (s : HistoryState)
        (distinct : NoDup (selectedIds s)) :
  let o := run env (toggleSelectItem x) s in
  events_of o = []
  /\ state_of o = with_selectedIds (fun _ => selectedIds (state_of o)) s
  /\ (forall y, JsSet.has y (selectedIds (state_of o))
                = if JsString.eqb y x then negb (JsSet.has x (selectedIds s))
                  else JsSet.has y (selectedIds s))
  /\ JsSet.size (selectedIds (state_of o))
     = (if JsSet.has x (selectedIds s)
        then pred (JsSet.size (selectedIds s))
        else S (JsSet.size (selectedIds s)))
  /\ NoDup (selectedIds (state_of o)).
Proof.
  cbv zeta. split; [reflexivity|]. exact (@toggleSelectItem_effect env x s distinct).
Qed.

Lemma toggleSelectItem_flips_witness :
  let a := JsString.lit "a" in
  let b := JsString.lit "b" in
  let s := with_selectedIds (fun _ => [a; b]) initialState in
  let env := Sample.env [] [] in
  NoDup (selectedIds s)
  /\ let o := run env (toggleSelectItem a) s in
     events_of o = []
     /\ state_of o = with_selectedIds (fun _ => selectedIds (state_of o)) s
     /\ (forall y, JsSet.has y (selectedIds (state_of o))
                   = if JsString.eqb y a then negb (JsSet.has a (selectedIds s))
                     else JsSet.has y (selectedIds s))
     /\ JsSet.size (selectedIds (state_of o))
        = (if JsSet.has a (selectedIds s)
           then pred (JsSet.size (selectedIds s))
           else S (JsSet.size (selectedIds s)))
     /\ NoDup (selectedIds (state_of o)).
Proof.
  intros a b s env.
  assert (NoDup (selectedIds s)) as H
      by (repeat constructor; simpl; intuition discriminate).
  split; [exact H|]. exact (@toggleSelectItem_flips env a s H).
Defined.

(** X2: toggling the same identifier twice leaves every identifier selected
    or not as it was, and the set as large as it was. *)
Theorem toggleSelectItem_twice (env : Env) (x : jsstring) (s : HistoryState)
        (distinct : NoDup (selectedIds s)) :
  let once := state_of (run env (toggleSelectItem x) s) in
  let twice := state_of (run env (toggleSelectItem x) once) in
  (forall y, JsSet.has y (selectedIds twice) = JsSet.has y (selectedIds s))
  /\ JsSet.size (selectedIds twice) = JsSet.size (selectedIds s)
  /\ (JsSet.has x (selectedIds s) = false -> twice = s).
Proof.
  cbv zeta.
  destruct (@toggleSelectItem_effect env x s distinct) as (F1 & M1 & Z1 & N1).
  destruct (@toggleSelectItem_effect env x _ N1) as (F2 & M2 & Z2 & N2).
  split; [|split].
  - intro y. rewrite M2, !M1, JsString_eqb_refl.
    destruct (JsString.eqb y x) eqn:E.
    + apply JsString_eqb_eq in E. subst y. now rewrite negb_involutive.
    + reflexivity.
  - rewrite Z2, M1, JsString_eqb_refl, Z1.
    destruct (JsSet.has x (selectedIds s)) eqn:E; cbn [negb]; [|reflexivity].
    apply JsSet_has_In in E. unfold JsSet.size in *.
    destruct (selectedIds s); [contradiction | reflexivity].
  - intro E. unfold toggleSelectItem, state_of.
    cbn [setState run fst snd]. unfold with_selectedIds.
    cbn -[JsSet.has JsSet.add JsSet.delete JsSet.of_list]. unfold JsSet.copy.
    rewrite (JsSet_of_list_id distinct), E.
    assert (NoDup (JsSet.add x (selectedIds s))) as Hnd by now apply JsSet_add_NoDup.
    rewrite (JsSet_of_list_id Hnd).
    replace (JsSet.has x (JsSet.add x (selectedIds s))) with true
      by (symmetry; apply JsSet_has_In, JsSet_add_In; now left).
    unfold JsSet.add. rewrite E.
    assert (JsSet.delete x (selectedIds s ++ [x]) = selectedIds s) as D.
    { unfold JsSet.delete. rewrite filter_app. cbn [filter].
      rewrite JsString_eqb_refl. cbn [negb]. rewrite app_nil_r.
      apply JsSet_delete_absent. intro Hin. apply JsSet_has_In in Hin. congruence. }
    rewrite D. now destruct s.
Qed.

Lemma toggleSelectItem_twice_witness :
  let a := JsString.lit "a" in
  let b := JsString.lit "b" in
  let s := with_selectedIds (fun _ => [a; b]) initialState in
  let env := Sample.env [] [] in
  NoDup (selectedIds s)
  /\ let once := state_of (run env (toggleSelectItem a) s) in
     let twice := state_of (run env (toggleSelectItem a) once) in
     (forall y, JsSet.has y (selectedIds twice) = JsSet.has y (selectedIds s))
     /\ JsSet.size (selectedIds twice) = JsSet.size (selectedIds s)
     /\ (JsSet.has a (selectedIds s) = false -> twice = s).
Proof.
  intros a b s env.
  assert (NoDup (selectedIds s)) as H
      by (repeat constructor; simpl; intuition discriminate).
  split; [exact H|]. exact (@toggleSelectItem_twice env a s H).
Defined.

(** X3: [selectAll] selects exactly the identifiers of the conversations of
    the render it was created in, each once and in list order; when those
    identifiers are pairwise distinct the set is as large as the list. *)
Theorem selectAll_selects_cached (env : Env) (render s : HistoryState) :
  let o := run env (selectAll render) s in
  events_of o = []
  /\ NoDup (selectedIds (state_of o))
  /\ (forall x, In x (selectedIds (state_of o))
                <-> exists c, In c (conversations render) /\ id c = x)
  /\ (NoDup (map id (conversations render)) ->
      selectedIds (state_of o) = map id (conversations render)
      /\ JsSet.size (selectedIds (state_of o)) = List.length (conversations render)).
Proof.
  cbv zeta. unfold selectAll, events_of, state_of.
  cbn [setState run fst snd]. unfold with_selectedIds. cbn [selectedIds].
  split; [reflexivity | split; [apply JsSet_of_list_NoDup | split]].
  - intro x. rewrite JsSet_of_list_In, in_map_iff.
    split; intros (c & H1 & H2); exists c; now split.
  - intro Hnd. rewrite (JsSet_of_list_id Hnd). split; [reflexivity|].
    unfold JsSet.size. apply length_map.
Qed.

(** ** Deleting one conversation *)

(** X4: with no pending identifier, [null] or the empty string,
    [confirmDelete] is the empty program: the store is not called and no cell
    changes, so an empty pending identifier is not even reset. *)
Theorem confirmDelete_nothing_pending (env : Env) (render s : HistoryState)
        (idle : falsy_cell (deleteConfirm render) = true) :
  confirmDelete render = Ret tt
  /\ run env (confirmDelete render) s = (Resolved tt, s, []).
Proof.
  unfold confirmDelete. unfold falsy_cell in idle.
  destruct (deleteConfirm render) as [target|]; [rewrite idle|]; split; reflexivity.
Qed.

Lemma confirmDelete_nothing_pending_witness :
  let s := with_deleteConfirm (fun _ => Some [])
             (with_conversations (fun _ => [Sample.conv "a"]) initialState) in
  falsy_cell (deleteConfirm s) = true
  /\ confirmDelete s = Ret tt
  /\ run (Sample.env [] []) (confirmDelete s) s = (Resolved tt, s, []).
Proof.
  intro s. split; [reflexivity|].
  apply (@confirmDelete_nothing_pending (Sample.env [] []) s s). reflexivity.
Defined.

Lemma filter_all (A : Type) (f : A -> bool) (l : list A) :
  (forall x, In x l -> f x = true) -> filter f l = l.
Proof.
  induction l as [|x l IH]; intro H; [reflexivity|].
  cbn [filter]. rewrite (H x) by now left.
  f_equal. apply IH. intros y Hy. apply H. now right.
Qed.

(** X5: when no cached conversation carries the pending identifier, a
    successful [confirmDelete] leaves the cached list as it is, and still
    calls the store and broadcasts the identifier. *)
Theorem confirmDelete_uncached_target
        (env : Env) (render s : HistoryState) (cid : jsstring)
        (pending : pendingDelete render cid)
        (uncached : forall c, In c (conversations s) -> id c <> cid)
        (deleted : deleteConversation_result env cid = Resolved tt) :
  let o := run env (confirmDelete render) s in
  conversations (state_of o) = conversations s
  /\ deletions (events_of o) = [cid]
  /\ broadcasts (events_of o) = [("conversationDeleted"%string, cid)].
Proof.
  apply pendingDelete_truthy in pending as [Hd Hf].
  unfold confirmDelete. rewrite Hd, Hf.
  cbn -[filter]. rewrite deleted. cbn -[filter].
  split; [|split; reflexivity].
  apply filter_all. intros c Hc. apply negb_true_iff, JsString_eqb_neq. now apply uncached.
Qed.

Lemma confirmDelete_uncached_target_witness :
  let c := JsString.lit "gone" in
  let s := with_deleteConfirm (fun _ => Some c)
             (with_conversations (fun _ => [Sample.conv "a"]) initialState) in
  let env := Sample.env [] [] in
  pendingDelete s c
  /\ (forall x, In x (conversations s) -> id x <> c)
  /\ deleteConversation_result env c = Resolved tt
  /\ let o := run env (confirmDelete s) s in
     conversations (state_of o) = conversations s
     /\ deletions (events_of o) = [c]
     /\ broadcasts (events_of o) = [("conversationDeleted"%string, c)].
Proof.
  intros c s env.
  assert (pendingDelete s c) as H1 by (split; reflexivity).
  assert (forall x, In x (conversations s) -> id x <> c) as H2
      by (intros x [<- | []]; discriminate).
  assert (deleteConversation_result env c = Resolved tt) as H3 by reflexivity.
  split; [exact H1 | split; [exact H2 | split; [exact H3|]]].
  exact (@confirmDelete_uncached_target env s s c H1 H2 H3).
Defined.

(** ** What no action does *)

Lemma delete_loop_cases (env : Env) (ids : list jsstring) :
  (forall cid, In cid ids -> deleteConversation_result env cid = Resolved tt)
  \/ exists done cid rest e,
       ids = done ++ cid :: rest
       /\ (forall x, In x done -> deleteConversation_result env x = Resolved tt)
       /\ deleteConversation_result env cid = Rejected e.
Proof.
  induction ids as [|x ids IH]; [left; intros ? []|].
  destruct (deleteConversation_result env x) as [[]|e] eqn:E.
  - destruct IH as [Hok | (done & cid & rest & e & -> & Hdone & Hcid)].
    + left. intros cid [<- | Hin]; [exact E | now apply Hok].
    + right. exists (x :: done), cid, rest, e. repeat split; [|exact Hcid].
      intros y [<- | Hin]; [exact E | now apply Hdone].
  - right. exists [], x, ids, e. repeat split; [intros ? [] | exact E].
Qed.

(** The three ways a batch delete can go. *)
Lemma confirmBatchDelete_outcomes (env : Env) (render s : HistoryState) :
  run env (confirmBatchDelete render) s = (Resolved tt, s, [])
  \/ ((forall cid, In cid (selectedIds render) ->
                   deleteConversation_result env cid = Resolved tt)
      /\ run env (confirmBatchDelete render) s
         = (Resolved tt,
            with_batchDeleteConfirm (fun _ => false)
              (with_isSelectionMode (fun _ => false)
                 (with_selectedIds (fun _ => JsSet.empty)
                    (with_conversations
                       (fun prev =>
                          filter (fun c => negb (JsSet.has (id c) (selectedIds render)))
                                 prev)
                       s))),
            map CallDeleteConversation (selectedIds render)
              ++ map (DispatchEvent "conversationDeleted") (selectedIds render)))
  \/ (exists done cid rest,
         selectedIds render = done ++ cid :: rest
         /\ run env (confirmBatchDelete render) s
            = (Resolved tt,
               with_batchDeleteConfirm (fun _ => false) s,
               map CallDeleteConversation (done ++ [cid])
                 ++ [ConsoleError "Failed to delete conversations:"])).
Proof.
  destruct (selectedIds render) as [|x ids] eqn:Esel.
  - left. unfold confirmBatchDelete. now rewrite Esel.
  - right. rewrite <- Esel.
    destruct (delete_loop_cases env (selectedIds render))
      as [Hok | (done & cid & rest & e & Hsel & Hdone & Hcid)].
    + left. split; [exact Hok|].
      apply confirmBatchDelete_success; [rewrite Esel; discriminate | exact Hok].
    + right. exists done, cid, rest. split; [exact Hsel|].
      exact (@confirmBatchDelete_failure env render s done cid rest e Hsel Hdone Hcid).
Qed.

Lemma in_calls_not_dispatch (name : string) (cid : jsstring) (ids : list jsstring) :
  ~ In (DispatchEvent name cid) (map CallDeleteConversation ids).
Proof. intro H. apply in_map_iff in H as (x & Hx & _). discriminate. Qed.

Section EveryAction.

Variable toLowerCase : jsstring -> jsstring.
Variable upper16 : N -> N.
Variable DOWNLOAD_SUCCESS_DISPLAY_MS : Z.
Variable renderMarkdown : ChatConversation -> Result jsstring.

Lemma confirmDelete_shape (env : Env) (render s : HistoryState) :
  run env (confirmDelete render) s = (Resolved tt, s, [])
  \/ exists target,
       (deleteConversation_result env target = Resolved tt
        /\ run env (confirmDelete render) s
           = (Resolved tt,
              with_deleteConfirm (fun _ => None)
                (with_conversations
                   (fun prev => filter (fun c => negb (JsString.eqb (id c) target)) prev)
                   (with_viewingConversation (fun _ => None)
                      (with_selectedConversationId (fun _ => None) s))),
              [CallDeleteConversation target;
               DispatchEvent "conversationDeleted" target]))
       \/ run env (confirmDelete render) s
          = (Resolved tt,
             with_deleteConfirm (fun _ => None)
               (with_viewingConversation (fun _ => None)
                  (with_selectedConversationId (fun _ => None) s)),
             [CallDeleteConversation target;
              ConsoleError "Failed to delete conversation:"]).
Proof.
  unfold confirmDelete. destruct (deleteConfirm render) as [target|]; [|now left].
  destruct (JsString.falsy target); [now left|].
  right. exists target. cbn -[filter].
  destruct (deleteConversation_result env target) as [[]|e] eqn:E; cbn -[filter].
  - left. split; reflexivity.
  - right. reflexivity.
Qed.

Lemma download_events (env : Env) (c : ChatConversation) (s : HistoryState) :
  let o := run env (handleDownloadConversation toLowerCase upper16
                      DOWNLOAD_SUCCESS_DISPLAY_MS renderMarkdown c) s in
  result_of o = Resolved tt
  /\ conversations (state_of o) = conversations s
  /\ isDownloaded (state_of o) = isDownloaded s
  /\ broadcasts (events_of o) = []
  /\ deletions (events_of o) = [].
Proof.
  cbv zeta. unfold handleDownloadConversation.
  destruct (renderMarkdown c) as [markdown | e];
    cbn -[generateFilename JsSet.has JsSet.delete JsSet.add JsSet.copy];
    [|repeat split].
  destruct (saveFile_result env _ markdown) as [[]|e];
    cbn -[generateFilename JsSet.has JsSet.delete JsSet.add JsSet.copy];
    repeat split.
Qed.

Lemma body_broadcasts (env : Env) (a : Action) (render s : HistoryState) :
  let o := run env (body toLowerCase upper16 DOWNLOAD_SUCCESS_DISPLAY_MS renderMarkdown
                      a render) s in
  forall name cid,
    In (name, cid) (broadcasts (events_of o)) ->
    name = "conversationDeleted"%string
    /\ deleteConversation_result env cid = Resolved tt
    /\ In cid (deletions (events_of o)).
Proof.
  cbv zeta. intros name cid.
  destruct a; cbn [body];
    try (cbn; intros []; fail).
  - cbn. destruct (getAllConversations_result env); cbn; intros [].
  - destruct (download_events env conversation s) as (_ & _ & _ & -> & _). intros [].
  - destruct (confirmDelete_shape env render s) as [-> | (target & [[Hok ->] | ->])];
      cbn; try (intros []; fail); try (intros [[]|[]]; fail).
    intros [H | []]. injection H as <- <-. repeat split; [exact Hok | now left].
  - destruct conversation as [c|]; [|intros []].
    unfold handleDownload. rewrite run_bind.
    pose proof (download_events env c s) as (Hr & _ & _ & Hb & _).
    destruct (run env (handleDownloadConversation _ _ _ _ c) s) as [[r s1] evs].
    unfold result_of, events_of in *. cbn [fst snd] in *. subst r.
    cbn [after setState perform bind run emit events_of snd].
    rewrite broadcasts_app, Hb. intros [].
  - unfold handleBatchDeleteConfirm.
    destruct (0 <? JsSet.size (selectedIds render))%nat; cbn; intros [].
  - destruct (confirmBatchDelete_outcomes env render s)
      as [-> | [[Hok ->] | (done & c & rest & Hsel & ->)]];
      unfold events_of; cbn [snd].
    + intros [].
    + rewrite broadcasts_app, broadcasts_calls, broadcasts_dispatch. cbn [app].
      intro H. apply in_map_iff in H as (x & Hx & Hin). injection Hx as <- <-.
      repeat split; [now apply Hok|].
      rewrite deletions_app, deletions_calls. apply in_or_app. now left.
    + rewrite broadcasts_app, broadcasts_calls. intros [].
Qed.

Lemma body_cache (env : Env) (a : Action) (render s : HistoryState) :
  a <> RefreshConversations ->
  let o := run env (body toLowerCase upper16 DOWNLOAD_SUCCESS_DISPLAY_MS renderMarkdown
                      a render) s in
  (forall c, In c (conversations (state_of o)) -> In c (conversations s))
  /\ (forall c, In c (conversations s) -> ~ In c (conversations (state_of o)) ->
                deleteConversation_result env (id c) = Resolved tt
                /\ In ("conversationDeleted"%string, id c) (broadcasts (events_of o))).
Proof.
  cbv zeta. intro Ha.
  assert (forall o : Outcome unit,
             conversations (state_of o) = conversations s ->
             (forall c, In c (conversations (state_of o)) -> In c (conversations s))
             /\ (forall c, In c (conversations s) -> ~ In c (conversations (state_of o)) ->
                           deleteConversation_result env (id c) = Resolved tt
                           /\ In ("conversationDeleted"%string, id c)
                                 (broadcasts (events_of o)))) as Same.
  { intros o E. rewrite E. split; [auto | intros c Hin Hout; contradiction]. }
  destruct a; cbn [body]; try (apply Same; reflexivity).
  - contradiction.
  - apply Same. now destruct (download_events env conversation s) as (_ & -> & _).
  - destruct (confirmDelete_shape env render s) as [-> | (target & [[Hok ->] | ->])];
      try (apply Same; reflexivity).
    unfold state_of, events_of. cbn -[filter]. split.
    + intros c Hc. now apply filter_In in Hc.
    + intros c Hin Hout.
      destruct (JsString.eqb (id c) target) eqn:E.
      * apply JsString_eqb_eq in E. rewrite E. split; [exact Hok | now left].
      * exfalso. apply Hout, filter_In. split; [exact Hin | now rewrite E].
  - destruct conversation as [c|]; [|apply Same; reflexivity].
    apply Same. unfold handleDownload. rewrite run_bind.
    pose proof (download_events env c s) as (Hr & Hc & _).
    destruct (run env (handleDownloadConversation _ _ _ _ c) s) as [[r s1] evs].
    unfold result_of, state_of in *. cbn [fst snd] in *. subst r. exact Hc.
  - apply Same. unfold handleBatchDeleteConfirm.
    now destruct (0 <? JsSet.size (selectedIds render))%nat.
  - destruct (confirmBatchDelete_outcomes env render s)
      as [-> | [[Hok ->] | (done & c & rest & Hsel & ->)]];
      try (apply Same; reflexivity).
    unfold state_of, events_of. cbn -[filter]. split.
    + intros c Hc. now apply filter_In in Hc.
    + intros c Hin Hout.
      destruct (JsSet.has (id c) (selectedIds render)) eqn:E.
      * apply JsSet_has_In in E. split; [now apply Hok|].
        rewrite broadcasts_app, broadcasts_calls, broadcasts_dispatch. cbn [app].
        apply in_map_iff. exists (id c). now split.
      * exfalso. apply Hout, filter_In. split; [exact Hin | now rewrite E].
Qed.

End EveryAction.

(** X6: whatever the action and whatever the store answers, every broadcast
    of a run is a [conversationDeleted] whose payload is an identifier the
    store was asked to delete in that run and did delete. *)
Theorem broadcast_only_after_store_deletion
        (toLowerCase : jsstring -> jsstring) (upper16 : N -> N) (ms : Z)
        (renderMarkdown : ChatConversation -> Result jsstring)
        (env : Env) (a : Action) (render s : HistoryState)
        (name : string) (cid : jsstring)
        (broadcast :
           In (name, cid)
              (broadcasts (events_of (run env (body toLowerCase upper16 ms renderMarkdown
                                                    a render) s)))) :
  name = "conversationDeleted"%string
  /\ deleteConversation_result env cid = Resolved tt
  /\ In cid (deletions (events_of (run env (body toLowerCase upper16 ms renderMarkdown
                                                 a render) s))).
Proof.
  exact (@body_broadcasts toLowerCase upper16 ms renderMarkdown env a render s
           name cid broadcast).
Qed.

(** X7: no action but [refreshConversations] adds a conversation to the
    cached list, and a conversation leaves the cached list only in a run in
    which the store deleted its identifier, which that run then broadcasts. *)
Theorem cache_shrinks_only_on_store_deletion
        (toLowerCase : jsstring -> jsstring) (upper16 : N -> N) (ms : Z)
        (renderMarkdown : ChatConversation -> Result jsstring)
        (env : Env) (a : Action) (render s : HistoryState)
        (not_refresh : a <> RefreshConversations) :
  let o := run env (body toLowerCase upper16 ms renderMarkdown a render) s in
  (forall c, In c (conversations (state_of o)) -> In c (conversations s))
  /\ (forall c, In c (conversations s) -> ~ In c (conversations (state_of o)) ->
                deleteConversation_result env (id c) = Resolved tt
                /\ In ("conversationDeleted"%string, id c) (broadcasts (events_of o))).
Proof.
  exact (@body_cache toLowerCase upper16 ms renderMarkdown env a render s not_refresh).
Qed.

Lemma broadcast_only_after_store_deletion_witness :
  let a := JsString.lit "a" in
  let s := Sample.state [Sample.conv "a"; Sample.conv "b"] [a] in
  let env := Sample.env [] [] in
  let o := run env (body Sample.toLowerCase Sample.upper16
                         Sample.DOWNLOAD_SUCCESS_DISPLAY_MS Sample.renderMarkdown
                         ConfirmBatchDelete s) s in
  In ("conversationDeleted"%string, a) (broadcasts (events_of o))
  /\ ("conversationDeleted"%string = "conversationDeleted"%string
      /\ deleteConversation_result env a = Resolved tt
      /\ In a (deletions (events_of o))).
Proof.
  intros a s env o.
  assert (In ("conversationDeleted"%string, a) (broadcasts (events_of o))) as H
      by (left; reflexivity).
  split; [exact H|].
  exact (@broadcast_only_after_store_deletion Sample.toLowerCase Sample.upper16
           Sample.DOWNLOAD_SUCCESS_DISPLAY_MS Sample.renderMarkdown env
           ConfirmBatchDelete s s _ a H).
Defined.

Lemma cache_shrinks_only_on_store_deletion_witness :
  let a := JsString.lit "a" in
  let s := Sample.state [Sample.conv "a"; Sample.conv "b"] [a] in
  let env := Sample.env [] [] in
  ConfirmBatchDelete <> RefreshConversations
  /\ let o := run env (body Sample.toLowerCase Sample.upper16
                            Sample.DOWNLOAD_SUCCESS_DISPLAY_MS Sample.renderMarkdown
                            ConfirmBatchDelete s) s in
     (forall c, In c (conversations (state_of o)) -> In c (conversations s))
     /\ (forall c, In c (conversations s) -> ~ In c (conversations (state_of o)) ->
                   deleteConversation_result env (id c) = Resolved tt
                   /\ In ("conversationDeleted"%string, id c) (broadcasts (events_of o))).
Proof.
  intros a s env.
  assert (ConfirmBatchDelete <> RefreshConversations) as H by discriminate.
  split; [exact H|].
  exact (@cache_shrinks_only_on_store_deletion Sample.toLowerCase Sample.upper16
           Sample.DOWNLOAD_SUCCESS_DISPLAY_MS Sample.renderMarkdown env
           ConfirmBatchDelete s s H).
Defined.

(** ** Downloading and the transient marks *)

(** X8: when rendering and saving succeed, [handleDownloadConversation] saves
    the rendered document under the generated file name, marks the
    conversation as recently downloaded and arms exactly one timer, with the
    display delay; when that timer fires the mark is gone, and across the
    two steps no other conversation gains or loses its mark. *)
Theorem handleDownloadConversation_marks_then_clears
        (toLowerCase : jsstring -> jsstring) (upper16 : N -> N) (ms : Z)
        (renderMarkdown : ChatConversation -> Result jsstring)
        (env : Env) (s : HistoryState) (c : ChatConversation) (markdown : jsstring)
        (rendered : renderMarkdown c = Resolved markdown)
        (saved : saveFile_result env (generateFilename toLowerCase upper16 (title c))
                                 markdown = Resolved tt) :
  let o := run env (handleDownloadConversation toLowerCase upper16 ms renderMarkdown c) s in
  let fired := state_of (run env (timerCallback (ClearDownloadedConversation (id c)))
                             (state_of o)) in
  events_of o
  = [StopPropagation;
     CallSaveFile (generateFilename toLowerCase upper16 (title c)) markdown;
     SetTimeout (ClearDownloadedConversation (id c)) ms]
  /\ JsSet.has (id c) (downloadedConversations (state_of o)) = true
  /\ JsSet.has (id c) (downloadedConversations fired) = false
  /\ (forall y, y <> id c ->
                JsSet.has y (downloadedConversations (state_of o))
                = JsSet.has y (downloadedConversations s)
                /\ JsSet.has y (downloadedConversations fired)
                   = JsSet.has y (downloadedConversations s)).
Proof.
  cbv zeta. unfold handleDownloadConversation. rewrite rendered.
  cbn -[generateFilename JsSet.has JsSet.delete JsSet.add JsSet.copy].
  rewrite saved.
  cbn -[generateFilename JsSet.has JsSet.delete JsSet.add JsSet.copy].
  unfold JsSet.copy. split; [reflexivity | split; [|split]].
  - apply JsSet_has_In, JsSet_add_In. now left.
  - apply JsSet_has_delete.
  - intros y Hy. split; apply JsSet_has_ext.
    + rewrite JsSet_add_In, JsSet_of_list_In. intuition.
    + rewrite JsSet_delete_In, JsSet_of_list_In, JsSet_add_In, JsSet_of_list_In.
      intuition.
Qed.

Lemma handleDownloadConversation_marks_then_clears_witness :
  let c := Sample.conv "chat" in
  let env := Sample.env [] [] in
  let markdown := generateConversationMarkdown Sample.toLocaleString Sample.toUpperCase c in
  Sample.renderMarkdown c = Resolved markdown
  /\ saveFile_result env (generateFilename Sample.toLowerCase Sample.upper16 (title c))
                     markdown = Resolved tt
  /\ let o := run env (handleDownloadConversation Sample.toLowerCase Sample.upper16
                         Sample.DOWNLOAD_SUCCESS_DISPLAY_MS Sample.renderMarkdown c)
                  initialState in
     let fired := state_of (run env (timerCallback (ClearDownloadedConversation (id c)))
                                (state_of o)) in
     events_of o
     = [StopPropagation;
        CallSaveFile (generateFilename Sample.toLowerCase Sample.upper16 (title c))
                     markdown;
        SetTimeout (ClearDownloadedConversation (id c))
                   Sample.DOWNLOAD_SUCCESS_DISPLAY_MS]
     /\ JsSet.has (id c) (downloadedConversations (state_of o)) = true
     /\ JsSet.has (id c) (downloadedConversations fired) = false
     /\ (forall y, y <> id c ->
                   JsSet.has y (downloadedConversations (state_of o))
                   = JsSet.has y (downloadedConversations initialState)
                   /\ JsSet.has y (downloadedConversations fired)
                      = JsSet.has y (downloadedConversations initialState)).
Proof.
  intros c env markdown.
  assert (Sample.renderMarkdown c = Resolved markdown) as H1 by reflexivity.
  assert (saveFile_result env
            (generateFilename Sample.toLowerCase Sample.upper16 (title c)) markdown
          = Resolved tt) as H2 by reflexivity.
  split; [exact H1 | split; [exact H2|]].
  exact (@handleDownloadConversation_marks_then_clears Sample.toLowerCase Sample.upper16
           Sample.DOWNLOAD_SUCCESS_DISPLAY_MS Sample.renderMarkdown env initialState c
           markdown H1 H2).
Defined.

(** X9: [handleDownload] on a conversation raises [isDownloaded] and arms
    the timer that lowers it whether or not the export failed: a failed
    export is caught inside [handleDownloadConversation] and never reaches
    it. On [null] it does nothing. *)
Theorem handleDownload_reports_success_regardless
        (toLowerCase : jsstring -> jsstring) (upper16 : N -> N) (ms : Z)
        (renderMarkdown : ChatConversation -> Result jsstring)
        (env : Env) (s : HistoryState) (c : ChatConversation) :
  let o := run env (handleDownload toLowerCase upper16 ms renderMarkdown (Some c)) s in
  result_of o = Resolved tt
  /\ isDownloaded (state_of o) = true
  /\ In (SetTimeout ClearIsDownloaded ms) (events_of o)
  /\ isDownloaded
       (state_of (run env (timerCallback ClearIsDownloaded) (state_of o))) = false
  /\ run env (handleDownload toLowerCase upper16 ms renderMarkdown None) s
     = (Resolved tt, s, []).
Proof.
  cbv zeta. unfold handleDownload. rewrite run_bind.
  pose proof (download_events toLowerCase upper16 ms renderMarkdown env c s) as (Hr & _).
  destruct (run env (handleDownloadConversation _ _ _ _ c) s) as [[r s1] evs].
  unfold result_of, state_of, events_of in *. cbn [fst snd] in *. subst r.
  cbn [after setState perform bind run emit fst snd].
  repeat split. apply in_or_app. right. now left.
Qed.

(** A failed export in particular: the flag is raised although the
    conversation carries no mark. *)
Example handleDownload_failed_export :
  let env := {| getAllConversations_result := Resolved [];
                deleteConversation_result := fun _ => Resolved tt;
                saveFile_result := fun _ _ => Rejected "denied"%string |} in
  let o := run env (handleDownload Sample.toLowerCase Sample.upper16
                      Sample.DOWNLOAD_SUCCESS_DISPLAY_MS Sample.renderMarkdown
                      (Some (Sample.conv "chat"))) initialState in
  isDownloaded (state_of o) = true
  /\ downloadedConversations (state_of o) = []
  /\ armed (events_of o) = [ClearIsDownloaded].
Proof. vm_compute. repeat split. Qed.

(** ** Requests and cancellations *)

(** X10: asking for a deletion and cancelling it, single or batch, calls
    nothing and, from a state with no confirmation open, gives the state
    back; in particular the selection and the cached list are untouched. *)
Theorem request_then_cancel (env : Env) (s : HistoryState) (cid : jsstring)
        (closed : deleteConfirm s = None /\ batchDeleteConfirm s = false) :
  let single := run env (handleDeleteConfirm cid ;; cancelDelete) s in
  let requested := state_of (run env (handleBatchDeleteConfirm s) s) in
  let batch := run env (handleBatchDeleteConfirm s ;; cancelBatchDelete) s in
  single = (Resolved tt, s, [])
  /\ batch = (Resolved tt, s, [])
  /\ batchDeleteConfirm requested = negb (JsSet.size (selectedIds s) =? 0)%nat.
Proof.
  destruct closed as [Hd Hb]. cbv zeta. unfold handleBatchDeleteConfirm.
  destruct s; cbn in Hd, Hb; subst.
  destruct selectedIds0; cbn; repeat split.
Qed.

Lemma request_then_cancel_witness :
  let a := JsString.lit "a" in
  let s := with_batchDeleteConfirm (fun _ => false)
             (Sample.state [Sample.conv "a"] [a]) in
  let env := Sample.env [] [] in
  (deleteConfirm s = None /\ batchDeleteConfirm s = false)
  /\ let single := run env (handleDeleteConfirm a ;; cancelDelete) s in
     let requested := state_of (run env (handleBatchDeleteConfirm s) s) in
     let batch := run env (handleBatchDeleteConfirm s ;; cancelBatchDelete) s in
     single = (Resolved tt, s, [])
     /\ batch = (Resolved tt, s, [])
     /\ batchDeleteConfirm requested = negb (JsSet.size (selectedIds s) =? 0)%nat.
Proof.
  intros a s env.
  assert (deleteConfirm s = None /\ batchDeleteConfirm s = false) as H
      by (split; reflexivity).
  split; [exact H|]. exact (@request_then_cancel env s a H).
Defined.

(** ** Overlapping refreshes *)

(** X11: two refreshes in flight share one loading flag and one cached list.
    When the later request is answered first, the flag drops although the
    earlier request is still waiting, and the earlier answer, arriving last,
    replaces the later one in the cache. *)
Theorem refresh_replies_out_of_order
        (save : jsstring -> jsstring -> Result unit) (s : HistoryState)
        (earlier later : list ChatConversation) :
  let c1 := land save refreshConversations s [] [] in
  let c2 := land save refreshConversations (cells c1) (inflight c1) (timers c1) in
  exists k,
    inflight c2 = [PendingGetAll k; PendingGetAll k]
    /\ isLoading (cells c2) = true
    /\ let c3 := land save (k (Resolved later)) (cells c2) [PendingGetAll k] [] in
       inflight c3 = [PendingGetAll k]
       /\ isLoading (cells c3) = false
       /\ conversations (cells c3) = later
       /\ let c4 := land save (k (Resolved earlier)) (cells c3) [] [] in
          inflight c4 = []
          /\ isLoading (cells c4) = false
          /\ conversations (cells c4) = earlier.
Proof.
  cbv zeta. eexists. split; [reflexivity|]. repeat split.
Qed.

(* ================================================================== *)
(** * The conversation list page *)
(* ================================================================== *)

(** ** Objects as records *)

Lemma JsRecord_get_set_same (k : jsstring) (v : list ChatConversation) (o : JsRecord.t) :
  JsRecord.get k (JsRecord.set k v o) = Some v.
Proof.
  induction o as [|[k' w] o IH]; cbn [JsRecord.set JsRecord.get].
  - now rewrite JsString_eqb_refl.
  - destruct (JsString.eqb k' k) eqn:E; cbn [JsRecord.get]; rewrite E; [reflexivity | exact IH].
Qed.

Lemma JsRecord_get_set_other (k k' : jsstring) (v : list ChatConversation)
      (o : JsRecord.t) :
  k <> k' -> JsRecord.get k' (JsRecord.set k v o) = JsRecord.get k' o.
Proof.
  intro Hne. induction o as [|[k0 w] o IH]; cbn [JsRecord.set JsRecord.get].
  - replace (JsString.eqb k k') with false by (symmetry; now apply JsString_eqb_neq).
    reflexivity.
  - destruct (JsString.eqb k0 k) eqn:E; cbn [JsRecord.get].
    + apply JsString_eqb_eq in E. subst k0.
      replace (JsString.eqb k k') with false by (symmetry; now apply JsString_eqb_neq).
      reflexivity.
    + now rewrite IH.
Qed.

Lemma JsRecord_keys_get (k : jsstring) (o : JsRecord.t) :
  In k (JsRecord.keys o) <-> JsRecord.get k o <> None.
Proof.
  unfold JsRecord.keys. induction o as [|[k0 w] o IH]; cbn [map fst JsRecord.get In].
  - intuition.
  - destruct (JsString.eqb k0 k) eqn:E.
    + apply JsString_eqb_eq in E. split; [discriminate | now left].
    + apply JsString_eqb_neq in E. rewrite IH. intuition.
Qed.

Lemma JsRecord_keys_set (k : jsstring) (v : list ChatConversation) (o : JsRecord.t) :
  JsRecord.keys (JsRecord.set k v o)
  = match JsRecord.get k o with
    | Some _ => JsRecord.keys o
    | None => JsRecord.keys o ++ [k]
    end.
Proof.
  unfold JsRecord.keys. induction o as [|[k0 w] o IH]; cbn [JsRecord.set JsRecord.get map fst];
    [reflexivity|].
  destruct (JsString.eqb k0 k) eqn:E; cbn [map fst]; [reflexivity|].
  rewrite IH. now destruct (JsRecord.get k o).
Qed.

Section Grouping.

Variable formatDay : Z -> jsstring.

(** The conversations of one day, in list order. *)
Let of_day (key : jsstring) (l : list ChatConversation) : list ChatConversation :=
  filter (fun c => JsString.eqb (formatDay (updatedAt c)) key) l.

Lemma groupStep_get (acc : JsRecord.t) (doc : ChatConversation) (key : jsstring) :
  JsRecord.get key (groupStep formatDay acc doc)
  = if JsString.eqb (formatDay (updatedAt doc)) key
    then Some (match JsRecord.get key acc with
               | Some docs => docs ++ [doc]
               | None => [doc]
               end)
    else JsRecord.get key acc.
Proof.
  unfold groupStep. cbv zeta.
  destruct (JsString.eqb (formatDay (updatedAt doc)) key) eqn:E.
  - apply JsString_eqb_eq in E. subst key.
    destruct (JsRecord.get (formatDay (updatedAt doc)) acc) as [docs|] eqn:G.
    + rewrite G. apply JsRecord_get_set_same.
    + rewrite JsRecord_get_set_same. apply JsRecord_get_set_same.
  - apply JsString_eqb_neq in E.
    destruct (JsRecord.get (formatDay (updatedAt doc)) acc) as [docs|] eqn:G.
    + rewrite G. now apply JsRecord_get_set_other.
    + rewrite JsRecord_get_set_same. now rewrite !JsRecord_get_set_other.
Qed.

Lemma groupStep_keys_NoDup (acc : JsRecord.t) (doc : ChatConversation) :
  NoDup (JsRecord.keys acc) -> NoDup (JsRecord.keys (groupStep formatDay acc doc)).
Proof.
  intro H. unfold groupStep. cbv zeta.
  destruct (JsRecord.get (formatDay (updatedAt doc)) acc) as [docs|] eqn:G.
  - rewrite G, JsRecord_keys_set, G. exact H.
  - rewrite JsRecord_get_set_same, JsRecord_keys_set, JsRecord_get_set_same.
    rewrite JsRecord_keys_set, G.
    apply NoDup_app; [exact H | repeat constructor; intros [] |].
    intros a Ha [<- | []]. apply JsRecord_keys_get in Ha. contradiction.
Qed.

Lemma fold_groupStep_get (l : list ChatConversation) (key : jsstring) :
  forall acc,
    JsRecord.get key (fold_left (groupStep formatDay) l acc)
    = match JsRecord.get key acc, of_day key l with
      | None, [] => None
      | None, docs => Some docs
      | Some before, docs => Some (before ++ docs)
      end.
Proof.
  unfold of_day. induction l as [|doc l IH]; intro acc; cbn [fold_left filter].
  - destruct (JsRecord.get key acc); [now rewrite app_nil_r | reflexivity].
  - rewrite IH, groupStep_get.
    destruct (JsString.eqb (formatDay (updatedAt doc)) key);
      [|reflexivity].
    destruct (JsRecord.get key acc) as [before|]; [now rewrite <- app_assoc | reflexivity].
Qed.

Lemma fold_groupStep_keys_NoDup (l : list ChatConversation) :
  forall acc, NoDup (JsRecord.keys acc) ->
              NoDup (JsRecord.keys (fold_left (groupStep formatDay) l acc)).
Proof.
  induction l as [|doc l IH]; intros acc H; [exact H|].
  apply IH. now apply groupStep_keys_NoDup.
Qed.

Lemma grouped_get (s : HistoryState) (key : jsstring) :
  JsRecord.get key (groupedConversations formatDay s)
  = match of_day key (conversations s) with
    | [] => None
    | docs => Some docs
    end.
Proof. unfold groupedConversations. now rewrite fold_groupStep_get. Qed.

Lemma grouped_keys (s : HistoryState) (key : jsstring) :
  In key (JsRecord.keys (groupedConversations formatDay s))
  <-> exists c, In c (conversations s) /\ formatDay (updatedAt c) = key.
Proof.
  rewrite JsRecord_keys_get, grouped_get. unfold of_day.
  destruct (filter _ (conversations s)) as [|c l] eqn:F.
  - split; [congruence|]. intros (c & Hc & E).
    assert (In c []) as [].
    rewrite <- F. apply filter_In. split; [exact Hc | now apply JsString_eqb_eq].
  - split; [|discriminate]. intros _. exists c.
    assert (In c (c :: l)) as H by now left.
    rewrite <- F in H. apply filter_In in H as [Hc E].
    split; [exact Hc | now apply JsString_eqb_eq].
Qed.

End Grouping.

(** X12: grouping by day loses and reorders nothing within a day: under each
    key the page finds exactly the conversations whose update day is that
    key, in the order of the cached list; a day without conversation has no
    key, and no key appears twice. *)
Theorem groupedConversations_by_day
        (formatDay : Z -> jsstring) (s : HistoryState) (key : jsstring) :
  JsRecord.get key (groupedConversations formatDay s)
  = match filter (fun c => JsString.eqb (formatDay (updatedAt c)) key) (conversations s)
    with
    | [] => None
    | docs => Some docs
    end
  /\ (In key (JsRecord.keys (groupedConversations formatDay s))
      <-> exists c, In c (conversations s) /\ formatDay (updatedAt c) = key)
  /\ NoDup (JsRecord.keys (groupedConversations formatDay s)).
Proof.
  split; [apply grouped_get | split; [apply grouped_keys|]].
  apply fold_groupStep_keys_NoDup. constructor.
Qed.

(** ** Sorting and searching *)

Lemma JsArray_insert_perm (A : Type) (compare : A -> A -> Z) (x : A) (l : list A) :
  Permutation (JsArray.insert compare x l) (x :: l).
Proof.
  induction l as [|y l IH]; cbn [JsArray.insert]; [reflexivity|].
  destruct (0 <? compare y x)%Z; [reflexivity|].
  rewrite IH. apply perm_swap.
Qed.

Lemma JsArray_sort_perm (A : Type) (compare : A -> A -> Z) (l : list A) :
  Permutation (JsArray.sort compare l) l.
Proof.
  unfold JsArray.sort.
  assert (forall acc,
             Permutation (fold_left (fun sorted x => JsArray.insert compare x sorted) l acc)
                         (acc ++ l)) as H.
  { induction l as [|x l IH]; intro acc; cbn [fold_left].
    - now rewrite app_nil_r.
    - rewrite IH, JsArray_insert_perm. apply Permutation_middle. }
  apply (H []).
Qed.

Section SortingByKey.

Variable A : Type.
Variable key : A -> Z.

(** Larger keys first. *)
Let before (a b : A) : Prop := (key b <= key a)%Z.



End SortingByKey.

Lemma startsWith_spec (s p : jsstring) :
  JsText.startsWith s p = true <-> exists rest, s = p ++ rest.
Proof.
  revert s. induction p as [|a p IH]; intro s; cbn [JsText.startsWith].
  - split; [intros _; now exists s | reflexivity].
  - destruct s as [|b s].
    + split; [discriminate | intros (rest & H); discriminate].
    + rewrite andb_true_iff, N.eqb_eq, IH. split.
      * intros [-> (rest & ->)]. now exists rest.
      * intros (rest & H). injection H as -> ->. split; [reflexivity | now exists rest].
Qed.

(** [includes] finds the needle exactly when it occurs somewhere. *)
Lemma includes_spec (s p : jsstring) :
  JsText.includes s p = true <-> exists pre post, s = pre ++ p ++ post.
Proof.
  induction s as [|b s IH]; cbn [JsText.includes]; rewrite orb_true_iff, startsWith_spec.
  - split.
    + intros [(rest & H) | H]; [|discriminate]. exists [], rest. exact H.
    + intros (pre & post & H). left. exists post.
      destruct pre; [exact H | discriminate].
  - rewrite IH. split.
    + intros [(rest & H) | (pre & post & ->)].
      * exists [], rest. exact H.
      * now exists (b :: pre), post.
    + intros ([|c pre] & post & H).
      * left. now exists post.
      * right. injection H as -> ->. now exists pre, post.
Qed.

(** [q || ""] is [q]. *)
Lemma or_empty (q : jsstring) : (if JsString.falsy q then [] else q) = q.
Proof. now destruct q. Qed.

Lemma JsSet_has_cons (x k : jsstring) (ks : JsSet.t) :
  JsSet.has x (k :: ks) = JsString.eqb x k || JsSet.has x ks.
Proof. reflexivity. Qed.

Section Rendering.

Variable formatDay : Z -> jsstring.
Variable momentOf : jsstring -> Z.
Variable toLowerCase : jsstring -> jsstring.

Lemma docs_of_day (s : HistoryState) (key : jsstring) :
  match JsRecord.get key (groupedConversations formatDay s) with
  | Some docs => docs
  | None => []
  end
  = filter (fun c => JsString.eqb (formatDay (updatedAt c)) key) (conversations s).
Proof.
  rewrite grouped_get.
  now destruct (filter _ (conversations s)).
Qed.

Lemma renderedCards_flat (s : HistoryState) :
  renderedCards formatDay momentOf toLowerCase s
  = flat_map (fun key =>
                filter (fun c => JsString.eqb (formatDay (updatedAt c)) key)
                       (conversations s))
             (filter (dateShown formatDay toLowerCase s) (sortedDates formatDay momentOf s)).
Proof.
  unfold renderedCards, renderedDays.
  induction (filter _ (sortedDates formatDay momentOf s)) as [|k ks IH]; [reflexivity|].
  cbn [map flat_map snd]. now rewrite IH, docs_of_day.
Qed.

Lemma sortedDates_In (s : HistoryState) (key : jsstring) :
  In key (sortedDates formatDay momentOf s)
  <-> exists c, In c (conversations s) /\ formatDay (updatedAt c) = key.
Proof.
  rewrite <- grouped_keys. unfold sortedDates. split; intro H.
  - eapply Permutation_in; [apply JsArray_sort_perm | exact H].
  - eapply Permutation_in; [symmetry; apply JsArray_sort_perm | exact H].
Qed.

Lemma renderedCards_In (s : HistoryState) (doc : ChatConversation) :
  In doc (renderedCards formatDay momentOf toLowerCase s)
  <-> In doc (conversations s)
      /\ dateShown formatDay toLowerCase s (formatDay (updatedAt doc)) = true.
Proof.
  rewrite renderedCards_flat, in_flat_map. split.
  - intros (key & Hkey & Hdoc). apply filter_In in Hkey as [_ Hshown].
    apply filter_In in Hdoc as [Hin E]. apply JsString_eqb_eq in E. subst key.
    now split.
  - intros [Hin Hshown]. exists (formatDay (updatedAt doc)). split.
    + apply filter_In. split; [|exact Hshown]. apply sortedDates_In. now exists doc.
    + apply filter_In. split; [exact Hin | apply JsString_eqb_refl].
Qed.

Lemma filter_split_by_key (k : jsstring) (ks : list jsstring) (l : list ChatConversation) :
  ~ In k ks ->
  Permutation
    (filter (fun c => JsString.eqb (formatDay (updatedAt c)) k) l
       ++ filter (fun c => JsSet.has (formatDay (updatedAt c)) ks) l)
    (filter (fun c => JsSet.has (formatDay (updatedAt c)) (k :: ks)) l).
Proof.
  intro Hk. induction l as [|c l IH]; [reflexivity|].
  cbn [filter]. rewrite (JsSet_has_cons (formatDay (updatedAt c)) k ks).
  destruct (JsString.eqb (formatDay (updatedAt c)) k) eqn:E.
  - replace (JsSet.has (formatDay (updatedAt c)) ks) with false.
    + cbn [orb app]. now apply perm_skip.
    + symmetry. destruct (JsSet.has _ ks) eqn:H; [|reflexivity].
      apply JsSet_has_In in H. apply JsString_eqb_eq in E. congruence.
  - cbn [orb]. destruct (JsSet.has (formatDay (updatedAt c)) ks).
    + rewrite <- IH. symmetry. apply Permutation_middle.
    + exact IH.
Qed.

Lemma flat_map_days (ks : list jsstring) (l : list ChatConversation) :
  NoDup ks ->
  Permutation
    (flat_map (fun key => filter (fun c => JsString.eqb (formatDay (updatedAt c)) key) l) ks)
    (filter (fun c => JsSet.has (formatDay (updatedAt c)) ks) l).
Proof.
  induction 1 as [|k ks Hk Hnd IH]; cbn [flat_map].
  - induction l as [|c l IHl]; [reflexivity | exact IHl].
  - rewrite IH. now apply filter_split_by_key.
Qed.

End Rendering.


(** X14: with an empty search the page shows every cached conversation
    exactly once: the rendered cards are a rearrangement of the cached list. *)
Theorem renderedCards_without_search
        (formatDay : Z -> jsstring) (momentOf : jsstring -> Z)
        (toLowerCase : jsstring -> jsstring) (s : HistoryState)
        (no_search : search s = []) :
  Permutation (renderedCards formatDay momentOf toLowerCase s) (conversations s).
Proof.
  rewrite renderedCards_flat.
  rewrite filter_all
    by (intros key _; unfold dateShown, JsString.length; now rewrite no_search).
  unfold sortedDates.
  rewrite (Permutation_flat_map _ (JsArray_sort_perm _ _)).
  rewrite flat_map_days by (apply fold_groupStep_keys_NoDup; constructor).
  rewrite filter_all; [reflexivity|].
  intros c Hc. apply JsSet_has_In, grouped_keys. now exists c.
Qed.

Lemma renderedCards_without_search_witness :
  let s := with_conversations (fun _ => [Sample.conv "a"; Sample.conv "b"]) initialState in
  search s = []
  /\ Permutation (renderedCards Sample.toLocaleString (fun _ => 0%Z) Sample.toLowerCase s)
                 (conversations s).
Proof.
  intro s. split; [reflexivity|].
  apply (@renderedCards_without_search Sample.toLocaleString (fun _ => 0%Z)
           Sample.toLowerCase s). reflexivity.
Defined.

(** X15: with a search, a conversation is shown exactly when some cached
    conversation of the same day has the search in its title, case ignored;
    so a match brings its whole day along, and a conversation that matches is
    always shown. *)
Theorem renderedCards_with_search
        (formatDay : Z -> jsstring) (momentOf : jsstring -> Z)
        (toLowerCase : jsstring -> jsstring) (s : HistoryState) (doc : ChatConversation)
        (searching : search s <> []) :
  In doc (renderedCards formatDay momentOf toLowerCase s)
  <-> In doc (conversations s)
      /\ exists hit,
           In hit (conversations s)
           /\ same_day formatDay hit doc
           /\ JsText.includes (toLowerCase (title hit)) (toLowerCase (search s)) = true.
Proof.
  rewrite renderedCards_In. unfold dateShown, JsString.length, same_day.
  replace (Z.of_nat (List.length (search s)) =? 0)%Z with false
    by (symmetry; apply Z.eqb_neq; destruct (search s); [contradiction | cbn; lia]).
  cbv zeta. rewrite or_empty, grouped_get.
  split; intros [Hin H]; (split; [exact Hin|]).
  - destruct (filter _ (conversations s)) as [|c l] eqn:F; [discriminate|].
    apply existsb_exists in H as (hit & Hhit & Hinc). exists hit.
    rewrite <- F in Hhit. apply filter_In in Hhit as [Hc E].
    apply JsString_eqb_eq in E. now repeat split.
  - destruct H as (hit & Hhit & Hday & Hinc).
    assert (In hit (filter (fun c => JsString.eqb (formatDay (updatedAt c))
                                                 (formatDay (updatedAt doc)))
                           (conversations s))) as Hf
        by (apply filter_In; split; [exact Hhit | now apply JsString_eqb_eq]).
    destruct (filter _ (conversations s)) as [|c l]; [contradiction|].
    apply existsb_exists. now exists hit.
Qed.

Lemma renderedCards_with_search_witness :
  let a := {| id := JsString.lit "1"; title := JsString.lit "Plan"; createdAt := 1;
              updatedAt := 5; messages := [] |} in
  let b := {| id := JsString.lit "2"; title := JsString.lit "Notes"; createdAt := 1;
              updatedAt := 5; messages := [] |} in
  let s := with_search (fun _ => JsString.lit "PLAN")
             (with_conversations (fun _ => [a; b]) initialState) in
  search s <> []
  /\ (In b (renderedCards Sample.toLocaleString (fun _ => 0%Z) Sample.toLowerCase s)
      <-> In b (conversations s)
          /\ exists hit,
               In hit (conversations s)
               /\ same_day Sample.toLocaleString hit b
               /\ JsText.includes (Sample.toLowerCase (title hit))
                                  (Sample.toLowerCase (search s)) = true).
Proof.
  intros a b s.
  assert (search s <> []) as H by discriminate.
  split; [exact H|].
  exact (@renderedCards_with_search Sample.toLocaleString (fun _ => 0%Z)
           Sample.toLowerCase s b H).
Defined.

(** The non-matching conversation of the witness is shown, because it shares
    its day with the match. *)
Example search_brings_the_day_along :
  let a := {| id := JsString.lit "1"; title := JsString.lit "Plan"; createdAt := 1;
              updatedAt := 5; messages := [] |} in
  let b := {| id := JsString.lit "2"; title := JsString.lit "Notes"; createdAt := 1;
              updatedAt := 5; messages := [] |} in
  let s := with_search (fun _ => JsString.lit "PLAN")
             (with_conversations (fun _ => [a; b]) initialState) in
  renderedCards Sample.toLocaleString (fun _ => 0%Z) Sample.toLowerCase s = [a; b].
Proof. vm_compute. reflexivity. Qed.

(** ** What holds on the page *)

Lemma page_selection_cleared (s : HistoryState) :
  selectedIds s = JsSet.empty -> page_selection s.
Proof.
  intro E. split; [now apply selection_cleared|].
  unfold selection_cached. rewrite E. intros x [].
Qed.

Lemma confirmBatchDelete_keeps_page (render s : HistoryState) :
  page_selection s -> keeps page_selection (confirmBatchDelete render) s.
Proof.
  intro H. unfold confirmBatchDelete.
  destruct (JsSet.size (selectedIds render) =? 0)%nat; [exact H|].
  unfold keeps, try_catch_finally.
  apply wp_finally, wp_try_catch, wp_bind, wp_delete_loop; [| |exact H].
  - intros s' Hs'. cbn [setState bind wp]. apply wp_bind, wp_dispatch_loop.
    cbn. now apply page_selection_cleared.
  - intros e s' Hs'. cbn. exact Hs'.
Qed.

Lemma toggleSelectItem_keeps_page (doc : ChatConversation) (s : HistoryState) :
  page_selection s -> isSelectionMode s = true -> In doc (conversations s) ->
  keeps page_selection (toggleSelectItem (id doc)) s.
Proof.
  intros [[Hmode Hnd] Hcached] Hon Hdoc.
  change (page_selection
            (state_of (run (Sample.env [] []) (toggleSelectItem (id doc)) s))).
  destruct (@toggleSelectItem_effect (Sample.env [] []) (id doc) s Hnd)
    as (Hframe & Hmem & _ & Hnd').
  cbv zeta in Hframe, Hmem, Hnd'.
  set (s' := state_of (run (Sample.env [] []) (toggleSelectItem (id doc)) s)) in *.
  assert (isSelectionMode s' = true /\ conversations s' = conversations s) as [Hm Hc]
      by (rewrite Hframe; now split).
  split; [split; [intros _; exact Hm | exact Hnd']|].
  intros x Hx. rewrite Hc.
  apply JsSet_has_In in Hx. rewrite Hmem in Hx.
  destruct (JsString.eqb x (id doc)) eqn:E.
  - apply JsString_eqb_eq in E. subst x. now exists doc.
  - apply Hcached. now apply JsSet_has_In.
Qed.

Section Page.

Variable formatDay : Z -> jsstring.
Variable momentOf : jsstring -> Z.
Variable toLowerCase : jsstring -> jsstring.

Lemma rendered_card_cached (s : HistoryState) (position : nat) (doc : ChatConversation) :
  nth_error (renderedCards formatDay momentOf toLowerCase s) position = Some doc ->
  In doc (conversations s).
Proof.
  intro H. apply nth_error_In in H. now apply renderedCards_In in H.
Qed.

Lemma onEvent_keeps (s : HistoryState) (ev : DashboardEvent) (p : Prog unit) :
  page_selection s ->
  onEvent formatDay momentOf toLowerCase s ev = Handle p ->
  keeps page_selection p s.
Proof.
  intros H E. unfold onEvent in E. cbv zeta in E.
  destruct (negb (List.length (conversations s) =? 0)%nat);
    destruct ev; cbn [andb] in E; try discriminate.
  - injection E as <-. exact H.
  - destruct (negb (isSelectionMode s)); [|discriminate].
    injection E as <-. now apply page_selection_cleared.
  - destruct (isSelectionMode s); [|discriminate].
    injection E as <-. now apply page_selection_cleared.
  - destruct (isSelectionMode s) eqn:Hon; [|discriminate]. injection E as <-.
    destruct (JsSet.size (selectedIds s) =? List.length (conversations s))%nat.
    + now apply page_selection_cleared.
    + unfold keeps, selectAll. cbn [setState wp].
      split; [split; [intros _; exact Hon | apply JsSet_of_list_NoDup]|].
      intros x Hx. unfold with_selectedIds in Hx |- *. cbn [selectedIds conversations] in *.
      apply JsSet_of_list_In, in_map_iff in Hx as (c & Hid & Hc). now exists c.
  - destruct (isSelectionMode s && negb (JsSet.size (selectedIds s) =? 0)%nat);
      [|discriminate].
    injection E as <-. unfold handleBatchDeleteConfirm.
    destruct (0 <? JsSet.size (selectedIds s))%nat; exact H.
  - destruct (nth_error _ position) as [doc|] eqn:Hnth; [|discriminate].
    destruct (isSelectionMode s) eqn:Hon; [|discriminate]. injection E as <-.
    exact (@toggleSelectItem_keeps_page doc s H Hon
             (@rendered_card_cached s position doc Hnth)).
  - destruct (isSelectionMode s) eqn:Hon; [|discriminate].
    destruct (nth_error _ position) as [doc|] eqn:Hnth; [|discriminate].
    injection E as <-.
    exact (@toggleSelectItem_keeps_page doc s H Hon
             (@rendered_card_cached s position doc Hnth)).
  - destruct (batchDeleteConfirm s); [|discriminate]. injection E as <-. exact H.
  - destruct (batchDeleteConfirm s); [|discriminate]. injection E as <-.
    now apply confirmBatchDelete_keeps_page.
  - destruct (batchDeleteConfirm s); [|discriminate]. injection E as <-. exact H.
  - destruct (batchDeleteConfirm s); [|discriminate]. injection E as <-.
    now apply confirmBatchDelete_keeps_page.
Qed.

(** While the first answer of the store is awaited nothing is rendered that
    the user could act on. *)
Lemma mounted_ignores (save : jsstring -> jsstring -> Result unit) (ev : DashboardEvent) :
  onEvent formatDay momentOf toLowerCase (cells (mounted save)) ev = Ignored.
Proof. destruct ev; reflexivity. Qed.

Lemma singleton_split (A : Type) (x y : A) (pre post : list A) :
  [x] = pre ++ y :: post -> pre = [] /\ x = y /\ post = [].
Proof.
  destruct pre as [|a pre]; cbn; intro H.
  - now injection H as -> <-.
  - injection H as _ H. now destruct pre.
Qed.

Lemma page_step_keeps (cfg cfg' : Config) :
  page_step formatDay momentOf toLowerCase cfg cfg' ->
  page_invariant cfg -> page_invariant cfg'.
Proof.
  intros Hstep [[save0 ->] | [Hs Hw]].
  - inversion Hstep as [cfg ev p save E | cfg pre k post r save E
                        | cfg pre cid k post r save E | cfg pre cb post save E]; subst.
    + rewrite mounted_ignores in E. discriminate.
    + right. cbn in E. apply singleton_split in E as (-> & E & ->).
      injection E as <-.
      destruct r as [loaded | e]; (split; [now apply page_selection_cleared | constructor]).
    + cbn in E. apply singleton_split in E as (_ & E & _). discriminate.
    + cbn in E. now destruct pre.
  - right.
    destruct Hstep as [cfg ev p save E | cfg pre k post r save E
                       | cfg pre cid k post r save E | cfg pre cb post save E].
    + apply land_keeps; [exact (@onEvent_keeps (cells cfg) ev p Hs E) | assumption].
    + rewrite E in Hw. apply Forall_without in Hw as [Hk Hw].
      apply land_keeps; [now apply Hk | assumption].
    + rewrite E in Hw. apply Forall_without in Hw as [Hk Hw].
      apply land_keeps; [now apply Hk | assumption].
    + apply land_keeps; [destruct cb; exact Hs | assumption].
Qed.

Lemma on_page_invariant (cfg : Config) :
  on_page formatDay momentOf toLowerCase cfg -> page_invariant cfg.
Proof.
  induction 1 as [save | cfg cfg' _ IH Hstep].
  - left. now exists save.
  - now apply (page_step_keeps Hstep).
Qed.

Lemma on_page_selection (cfg : Config) :
  on_page formatDay momentOf toLowerCase cfg -> page_selection (cells cfg).
Proof.
  intro H. destruct (on_page_invariant H) as [[save ->] | [Hs _]]; [|exact Hs].
  now apply page_selection_cleared.
Qed.

End Page.

Lemma deletions_selected (env : Env) (render s : HistoryState) (x : jsstring) :
  In x (deletions (events_of (run env (confirmBatchDelete render) s))) ->
  In x (selectedIds render).
Proof.
  destruct (confirmBatchDelete_outcomes env render s)
    as [-> | [[_ ->] | (done & c & rest & Hsel & ->)]];
    unfold events_of; cbn [snd].
  - intros [].
  - now rewrite deletions_app, deletions_calls, deletions_dispatch, app_nil_r.
  - rewrite deletions_app, deletions_calls, app_nil_r, Hsel.
    intro H. apply in_app_or in H as [H | [<- | []]]; apply in_or_app;
      [now left | right; now left].
Qed.

(** X16: on the conversation list page, from mount on and however clicks
    and store answers interleave, the selection set is non-empty only while
    selection mode is on, with nothing assumed of the user: the page offers
    item selection and "select all" only in selection mode. *)
Theorem page_selection_only_in_selection_mode
        (formatDay : Z -> jsstring) (momentOf : jsstring -> Z)
        (toLowerCase : jsstring -> jsstring) (cfg : Config)
        (reached : on_page formatDay momentOf toLowerCase cfg) :
  selection_within_mode (cells cfg)
  /\ NoDup (selectedIds (cells cfg)).
Proof. exact (proj1 (on_page_selection reached)). Qed.

(** X17: on the conversation list page every selected identifier is the
    identifier of a cached conversation, so a confirmed batch delete asks the
    store to delete cached conversations only. *)
Theorem page_deletes_only_cached
        (formatDay : Z -> jsstring) (momentOf : jsstring -> Z)
        (toLowerCase : jsstring -> jsstring) (cfg : Config)
        (reached : on_page formatDay momentOf toLowerCase cfg) :
  selection_cached (cells cfg)
  /\ (forall env x,
         In x (deletions (events_of (run env (confirmBatchDelete (cells cfg)) (cells cfg)))) ->
         exists c, In c (conversations (cells cfg)) /\ id c = x).
Proof.
  pose proof (proj2 (on_page_selection reached)) as H.
  split; [exact H|]. intros env x Hx. apply H. now apply deletions_selected in Hx.
Qed.

(** A page that has loaded two conversations, entered selection mode and
    had its first card clicked. *)
Lemma on_page_sample :
  let a := Sample.conv "a" in
  let b := Sample.conv "b" in
  let save := fun _ _ : jsstring => Resolved tt in
  on_page Sample.toLocaleString (fun _ => 0%Z) Sample.toLowerCase
          {| cells := with_selectedIds (fun _ => [id a])
                        (with_isSelectionMode (fun _ => true)
                           (with_conversations (fun _ => [a; b]) initialState));
             inflight := []; timers := [] |}.
Proof.
  intros a b save.
  pose (loaded := {| cells := with_conversations (fun _ => [a; b]) initialState;
                     inflight := []; timers := [] |}).
  pose (selecting := {| cells := with_isSelectionMode (fun _ => true) (cells loaded);
                        inflight := []; timers := [] |}).
  apply on_page_step with (cfg := selecting).
  - apply on_page_step with (cfg := loaded).
    + apply on_page_step with (cfg := mounted save); [apply on_page_mounted|].
      exact (@page_getAll_settled Sample.toLocaleString (fun _ => 0%Z) Sample.toLowerCase
               (mounted save) [] _ [] (Resolved [a; b]) save eq_refl).
    + exact (@page_event Sample.toLocaleString (fun _ => 0%Z) Sample.toLowerCase
               loaded ClickSelect _ save eq_refl).
  - exact (@page_event Sample.toLocaleString (fun _ => 0%Z) Sample.toLowerCase
             selecting (ClickCard 0) _ save eq_refl).
Qed.

Lemma page_selection_only_in_selection_mode_witness :
  let a := Sample.conv "a" in
  let b := Sample.conv "b" in
  let cfg := {| cells := with_selectedIds (fun _ => [id a])
                           (with_isSelectionMode (fun _ => true)
                              (with_conversations (fun _ => [a; b]) initialState));
                inflight := []; timers := [] |} in
  on_page Sample.toLocaleString (fun _ => 0%Z) Sample.toLowerCase cfg
  /\ (selection_within_mode (cells cfg) /\ NoDup (selectedIds (cells cfg))).
Proof.
  intros a b cfg. split; [exact on_page_sample|].
  exact (@page_selection_only_in_selection_mode Sample.toLocaleString (fun _ => 0%Z)
           Sample.toLowerCase cfg on_page_sample).
Defined.

Lemma page_deletes_only_cached_witness :
  let a := Sample.conv "a" in
  let b := Sample.conv "b" in
  let cfg := {| cells := with_selectedIds (fun _ => [id a])
                           (with_isSelectionMode (fun _ => true)
                              (with_conversations (fun _ => [a; b]) initialState));
                inflight := []; timers := [] |} in
  on_page Sample.toLocaleString (fun _ => 0%Z) Sample.toLowerCase cfg
  /\ (selection_cached (cells cfg)
      /\ (forall env x,
             In x (deletions (events_of (run env (confirmBatchDelete (cells cfg))
                                             (cells cfg)))) ->
             exists c, In c (conversations (cells cfg)) /\ id c = x)).
Proof.
  intros a b cfg. split; [exact on_page_sample|].
  exact (@page_deletes_only_cached Sample.toLocaleString (fun _ => 0%Z)
           Sample.toLowerCase cfg on_page_sample).
Defined.

(** X18: in selection mode, when the cached conversations have pairwise
    distinct identifiers and not all are selected, the "select all" button
    selects all of them, after which the same button deselects all. *)
Theorem select_all_button_toggles
        (formatDay : Z -> jsstring) (momentOf : jsstring -> Z)
        (toLowerCase : jsstring -> jsstring) (env : Env) (s : HistoryState)
        (listed : conversations s <> [])
        (selecting : isSelectionMode s = true)
        (distinct : NoDup (map id (conversations s)))
        (partial : JsSet.size (selectedIds s) <> List.length (conversations s)) :
  exists first second,
    onEvent formatDay momentOf toLowerCase s ClickSelectAll = Handle first
    /\ let s1 := state_of (run env first s) in
       selectedIds s1 = map id (conversations s)
       /\ onEvent formatDay momentOf toLowerCase s1 ClickSelectAll = Handle second
       /\ selectedIds (state_of (run env second s1)) = JsSet.empty.
Proof.
  assert ((List.length (conversations s) =? 0)%nat = false) as Hl
      by (apply Nat.eqb_neq; destruct (conversations s); [contradiction | discriminate]).
  exists (selectAll s), deselectAll. split.
  - unfold onEvent. rewrite Hl, selecting. cbn [negb andb].
    now apply Nat.eqb_neq in partial as ->.
  - cbv zeta. unfold selectAll, state_of. cbn [setState run fst snd].
    unfold onEvent, with_selectedIds, deselectAll.
    cbn [selectedIds conversations isSelectionMode setState run fst snd].
    rewrite (JsSet_of_list_id distinct). split; [reflexivity | split; [|reflexivity]].
    rewrite Hl, selecting. cbn [negb andb]. unfold JsSet.size.
    now rewrite length_map, Nat.eqb_refl.
Qed.

Lemma select_all_button_toggles_witness :
  let s := Sample.state [Sample.conv "a"; Sample.conv "b"] [JsString.lit "a"] in
  let env := Sample.env [] [] in
  conversations s <> []
  /\ isSelectionMode s = true
  /\ NoDup (map id (conversations s))
  /\ JsSet.size (selectedIds s) <> List.length (conversations s)
  /\ exists first second,
       onEvent Sample.toLocaleString (fun _ => 0%Z) Sample.toLowerCase s ClickSelectAll
       = Handle first
       /\ let s1 := state_of (run env first s) in
          selectedIds s1 = map id (conversations s)
          /\ onEvent Sample.toLocaleString (fun _ => 0%Z) Sample.toLowerCase s1
                     ClickSelectAll = Handle second
          /\ selectedIds (state_of (run env second s1)) = JsSet.empty.
Proof.
  intros s env.
  assert (conversations s <> []) as H1 by discriminate.
  assert (isSelectionMode s = true) as H2 by reflexivity.
  assert (NoDup (map id (conversations s))) as H3
      by (repeat constructor; simpl; intuition discriminate).
  assert (JsSet.size (selectedIds s) <> List.length (conversations s)) as H4
      by discriminate.
  split; [exact H1 | split; [exact H2 | split; [exact H3 | split; [exact H4|]]]].
  exact (@select_all_button_toggles Sample.toLocaleString (fun _ => 0%Z)
           Sample.toLowerCase env s H1 H2 H3 H4).
Defined.

(* ================================================================== *)
(** * The multi-monitor warning panel *)
(* ================================================================== *)

Lemma Warning_never_dismissed (storage0 : Warning.Storage) (w : Warning.State * Warning.Storage) :
  Warning.reaches true storage0 w -> Warning.dismissed (fst w) = false.
Proof.
  induction 1 as [|[s storage] w' ev _ IH Hnext]; [reflexivity|].
  cbn [fst] in IH. unfold Warning.next in Hnext. destruct ev.
  - destruct (Warning.loading s); [|discriminate]. injection Hnext as <-.
    cbn [fst]. unfold Warning.checkSupport. cbv zeta.
    destruct reply as [result | e]; cbn; [|exact IH].
    rewrite andb_false_r. cbn. exact IH.
  - unfold Warning.render in Hnext.
    destruct (Warning.loading s || Warning.dismissed s); [discriminate|].
    destruct (Warning.support s) as [sup|]; cbn in Hnext; [|discriminate].
    rewrite andb_false_r, andb_true_r in Hnext.
    destruct (Warning.supported sup); discriminate.
  - destruct (Warning.render true s) as [| |? ? ? ? [c|]]; try discriminate.
    injection Hnext as <-. cbn [fst]. unfold Warning.handleCopyCommand.
    destruct (Warning.support s) as [sup|]; [|exact IH].
    destruct (JsString.falsy _); [exact IH|]. destruct written; exact IH.
  - injection Hnext as <-. exact IH.
Qed.

(** X19: mounted with [showAlways], as on the settings page, the panel is
    never dismissed, and once the capability check has settled, successfully
    or not, it always renders a card: the success card when multi-monitor
    capture is supported, the warning card, without a dismiss button,
    otherwise. *)
Theorem warning_always_shown_in_settings
        (storage0 : Warning.Storage) (s : Warning.State) (storage : Warning.Storage)
        (reached : Warning.reaches true storage0 (s, storage))
        (settled : Warning.loading s = false) :
  Warning.dismissed s = false
  /\ Warning.render true s <> Warning.Hidden
  /\ (forall dismissButton session available missing command,
         Warning.render true s
         = Warning.Limited dismissButton session available missing command ->
         dismissButton = false).
Proof.
  pose proof (Warning_never_dismissed reached) as Hd. cbn [fst] in Hd.
  split; [exact Hd|]. unfold Warning.render. rewrite settled, Hd. cbn [orb].
  destruct (Warning.support s) as [sup|]; cbn [negb].
  - rewrite andb_false_r, andb_true_r. destruct (Warning.supported sup).
    + split; [discriminate | intros; discriminate].
    + split; [discriminate|]. intros ? ? ? ? ? H. now injection H as <-.
  - split; [discriminate|]. intros ? ? ? ? ? H. now injection H as <-.
Qed.

Lemma warning_always_shown_in_settings_witness :
  let storage0 : Warning.Storage :=
    fun k => if String.eqb Warning.dismissedKey k then Some (JsString.lit "true") else None in
  let s := Warning.checkSupport true (Rejected "no backend"%string) storage0 Warning.initial in
  Warning.reaches true storage0 (s, storage0)
  /\ Warning.loading s = false
  /\ (Warning.dismissed s = false
      /\ Warning.render true s <> Warning.Hidden
      /\ (forall dismissButton session available missing command,
             Warning.render true s
             = Warning.Limited dismissButton session available missing command ->
             dismissButton = false)).
Proof.
  intros storage0 s.
  assert (Warning.reaches true storage0 (s, storage0)) as R.
  { apply Warning.reaches_next
      with (w := (Warning.initial, storage0))
           (ev := Warning.CheckSettled (Rejected "no backend"%string));
      [apply Warning.reaches_mounted | reflexivity]. }
  assert (Warning.loading s = false) as L by reflexivity.
  split; [exact R | split; [exact L|]].
  exact (@warning_always_shown_in_settings storage0 s storage0 R L).
Defined.

(** X20: dismissing hides the panel and stores the dismissal. A panel
    mounted later without [showAlways] stays hidden whatever a successful
    capability check answers; but if that check fails the stored dismissal is
    not read, and the warning is shown again, with session [unknown] and a
    dismiss button. *)
Theorem warning_dismissal_persists
        (s : Warning.State) (storage : Warning.Storage) :
  let '(s', storage') := Warning.handleDismiss s storage in
  Warning.render false s' = Warning.Hidden
  /\ (forall sup,
         Warning.render false
           (Warning.checkSupport false (Resolved sup) storage' Warning.initial)
         = Warning.Hidden)
  /\ (forall e,
         Warning.render false
           (Warning.checkSupport false (Rejected e) storage' Warning.initial)
         = Warning.Limited true (JsString.lit "unknown") None None None).
Proof.
  cbn. split; [|split].
  - unfold Warning.render. cbn. now rewrite orb_true_r.
  - intro sup. reflexivity.
  - intro e. reflexivity.
Qed.
